(** * Code-to-FSM analyzer: the extraction and orchestration pipeline

    A shallow embedding of [src/code-to-fsm/analyzer.js] (class
    [CodeToFSMAnalyzer]) and of its earlier copy without the HTML viewer.

    - JavaScript strings are sequences of UTF-16 code units ([list N]).
    - Calls into Node ([fs], [os], [console], [child_process]) and into the
      [glob] package are operations of a program tree ([prog]); an
      environment ([Env]) answers them, and [run] records every call with
      its answer in a trace.
    - [path.join], [path.resolve], [path.relative] and the static HTML of
      the viewer are taken from a [Platform]. *)

From Stdlib Require Import NArith ZArith List String Ascii Bool Lia.
From Stdlib Require Import DecimalString.
From Stdlib Require DecimalN DecimalPos.
From stdpp Require Import base option list gmap.
Import ListNotations.

Local Open Scope N_scope.
Local Open Scope list_scope.

(* ===================================================================== *)
(** ** JavaScript strings *)
(* ===================================================================== *)

(** A string is its sequence of UTF-16 code units. *)
Abbreviation str := (list N).

(** An ASCII literal as a JavaScript string. *)
Definition js (s : string) : str :=
  List.map N_of_ascii (list_ascii_of_string s).
Arguments js s%_string : simpl never.

Definition LF : N := 10.
Definition DQUOTE : N := 34.

(** [s.startsWith(pre)]: the test the regular-expression engine performs
    for a literal at the current position. *)
Fixpoint starts_with (pre s : str) : bool :=
  match pre, s with
  | [], _ => true
  | _ :: _, [] => false
  | a :: pre', b :: s' => (a =? b) && starts_with pre' s'
  end.

(** [s.includes(needle)] *)
Fixpoint includes (needle s : str) : bool :=
  starts_with needle s ||
  match s with
  | [] => false
  | _ :: s' => includes needle s'
  end.

(** ECMAScript [WhiteSpace] and [LineTerminator] code points, the ones
    [String.prototype.trim] strips. *)
Definition is_js_space (c : N) : bool :=
  (c =? 9) || (c =? 10) || (c =? 11) || (c =? 12) || (c =? 13) || (c =? 32) ||
  (c =? 160) || (c =? 5760) || ((8192 <=? c) && (c <=? 8202)) ||
  (c =? 8232) || (c =? 8233) || (c =? 8239) || (c =? 8287) ||
  (c =? 12288) || (c =? 65279).

Fixpoint trim_start (s : str) : str :=
  match s with
  | [] => []
  | c :: s' => if is_js_space c then trim_start s' else s
  end.

Definition trim_end (s : str) : str := rev (trim_start (rev s)).

(** [s.trim()] *)
Definition trim (s : str) : str := trim_end (trim_start s).

(** [a.join(sep)] *)
Fixpoint join (sep : str) (l : list str) : str :=
  match l with
  | [] => []
  | [x] => x
  | x :: rest => x ++ sep ++ join sep rest
  end.

(** [s.repeat(n)] *)
Fixpoint repeat_str (s : str) (n : nat) : str :=
  match n with
  | O => []
  | S n' => s ++ repeat_str s n'
  end.

(** Number to string, for integers. *)
Definition show_N (n : N) : str := js (NilZero.string_of_uint (N.to_uint n)).
Definition show_Z (z : Z) : str := js (NilZero.string_of_int (Z.to_int z)).

(* ===================================================================== *)
(** ** Errors and results *)
(* ===================================================================== *)

(** A JavaScript [Error]; only its [message] is ever inspected. *)
Record Error := mkError { message : str }.

(** The result of a call that may throw. *)
Inductive result (A : Type) : Type :=
| Ok (a : A)
| Thrown (e : Error).
Arguments Ok {A} a.
Arguments Thrown {A} e.

(* ===================================================================== *)
(** ** DiagramExtractor: [extractMermaidDiagram] *)
(* ===================================================================== *)

Definition keyword : str := js "stateDiagram-v2".
Definition fence : str := js "```".
Definition mermaid_open : str := js "```mermaid" ++ [LF].

(** The lookahead [(?=\n\n|\n```|$)]; the regular expression has no [m]
    flag, so [$] holds at the end of the input only. *)
Definition block_end (s : str) : bool :=
  starts_with [LF; LF] s || starts_with (LF :: fence) s ||
  match s with [] => true | _ => false end.

(** [[\s\S]*?(?=\n\n|\n```|$)] at the current position: the lazy star first
    tries to stop, and takes one more code unit when the lookahead fails.
    The end of the input satisfies the lookahead, so it always matches. *)
Fixpoint lazy_block (s : str) : str :=
  if block_end s then []
  else match s with
       | [] => []
       | c :: s' => c :: lazy_block s'
       end.

(** [/stateDiagram-v2[\s\S]*?(?=\n\n|\n```|$)/] anchored at the current
    position: the matched text, if any. *)
Definition diagram_re_here (s : str) : option str :=
  if starts_with keyword s
  then Some (keyword ++ lazy_block (drop (length keyword) s))
  else None.

(** [response.match(/stateDiagram-v2[\s\S]*?(?=\n\n|\n```|$)/)]: without
    the [g] flag, [match] returns the leftmost match; component [0]. *)
Fixpoint diagram_re (s : str) : option str :=
  match diagram_re_here s with
  | Some m => Some m
  | None =>
      match s with
      | [] => None
      | _ :: s' => diagram_re s'
      end
  end.

(** [([\s\S]*?)```] at the current position: the captured group, or no
    match when no closing fence follows. *)
Fixpoint lazy_to_fence (s : str) : option str :=
  if starts_with fence s then Some []
  else match s with
       | [] => None
       | c :: s' => cons c <$> lazy_to_fence s'
       end.

Definition code_block_re_here (s : str) : option str :=
  if starts_with mermaid_open s
  then lazy_to_fence (drop (length mermaid_open) s)
  else None.

(** [response.match(/```mermaid\n([\s\S]*?)```/)]: component [1] of the
    leftmost match. *)
Fixpoint code_block_re (s : str) : option str :=
  match code_block_re_here s with
  | Some g => Some g
  | None =>
      match s with
      | [] => None
      | _ :: s' => code_block_re s'
      end
  end.

Definition extract_failed : Error :=
  mkError (js "Could not extract Mermaid diagram from response").

Definition extractMermaidDiagram (response : str) : result str :=
  match diagram_re response with
  | Some diagramMatch => Ok (trim diagramMatch)
  | None =>
      match code_block_re response with
      | Some codeBlockMatch => Ok (trim codeBlockMatch)
      | None =>
          if includes keyword response then Ok response
          else Thrown extract_failed
      end
  end.

(** The reading of the first strategy in the design notes: the keyword
    counts only at the start of a line, that is at the start of the text
    or right after a line terminator. [keyword_at_line_start s] tells
    whether [s] has such an occurrence. *)
Definition is_line_terminator (c : N) : bool :=
  (c =? 10) || (c =? 13) || (c =? 8232) || (c =? 8233).

Fixpoint keyword_from (line_start : bool) (s : str) : bool :=
  match s with
  | [] => false
  | c :: s' =>
      (line_start && starts_with keyword s) || keyword_from (is_line_terminator c) s'
  end.

Definition keyword_at_line_start (s : str) : bool := keyword_from true s.

(* ===================================================================== *)
(** ** The environment: Node, the file system, the child process *)
(* ===================================================================== *)

(** What [fs.statSync] returns; the analyzer reads [size] only. *)
Record Stats := mkStats { size : N; isDirectory : bool }.

(** Events of the spawned child process, in the order in which Node
    delivers them to the listeners. [Close None] is an exit code of
    [null] (the child was ended by a signal). An ['error'] event reports
    a child that could not be started; Node emits ['close'] after it. *)
Inductive ChildEvent : Type :=
| StdoutData (data : str)
| StderrData (data : str)
| Close (code : option Z)
| SpawnError (err : Error).

(** The calls the analyzer makes. *)
Inductive op : Type :=
| Glob (pattern cwd : str) (ignore : list str)
| StatSync (file : str)
| ReadFileSync (file : str)
| WriteFileSync (file data : str)
| UnlinkSync (file : str)
| ExistsSync (dir : str)
| MkdirSyncRecursive (dir : str)
| ConsoleLog (msg : str)
| ConsoleWarn (msg : str)
| OsTmpdir
| DateNow
| ProcessPlatform
| Spawn (command : str).

(** What each call gives back. *)
Definition resp (o : op) : Type :=
  match o with
  | Glob _ _ _ => result (list str)
  | StatSync _ => result Stats
  | ReadFileSync _ => result str
  | WriteFileSync _ _ => result unit
  | UnlinkSync _ => result unit
  | ExistsSync _ => bool
  | MkdirSyncRecursive _ => result unit
  | ConsoleLog _ => unit
  | ConsoleWarn _ => unit
  | OsTmpdir => str
  | DateNow => N
  | ProcessPlatform => str
  | Spawn _ => result (list ChildEvent)
  end.

(** Programs: return, throw, wait forever on a promise that is never
    settled, or make a call and go on with its answer. *)
Inductive prog (A : Type) : Type :=
| Ret (a : A)
| Throw (e : Error)
| Hang
| Vis (o : op) (k : resp o -> prog A).
Arguments Ret {A} a.
Arguments Throw {A} e.
Arguments Hang {A}.
Arguments Vis {A} o k.

Fixpoint bind {A B} (p : prog A) (f : A -> prog B) : prog B :=
  match p with
  | Ret a => f a
  | Throw e => Throw e
  | Hang => Hang
  | Vis o k => Vis o (fun x => bind (k x) f)
  end.

(** [try { p } catch (error) { h error }] *)
Fixpoint try_catch {A} (p : prog A) (h : Error -> prog A) : prog A :=
  match p with
  | Ret a => Ret a
  | Throw e => h e
  | Hang => Hang
  | Vis o k => Vis o (fun x => try_catch (k x) h)
  end.

Declare Scope prog_scope.
Delimit Scope prog_scope with prog.
Notation "x <- p ;; q" := (bind p (fun x => q))
  (at level 100, p at next level, right associativity) : prog_scope.
Notation "p ;; q" := (bind p (fun _ => q))
  (at level 100, right associativity) : prog_scope.
Local Open Scope prog_scope.

(** A call whose answer is a plain value. *)
Definition call (o : op) : prog (resp o) := Vis o Ret.

(** A call that may throw. *)
Definition of_result {A} (r : result A) : prog A :=
  match r with
  | Ok a => Ret a
  | Thrown e => Throw e
  end.

Definition glob (pattern cwd : str) (ignore : list str) : prog (list str) :=
  Vis (Glob pattern cwd ignore) of_result.
Definition statSync (file : str) : prog Stats := Vis (StatSync file) of_result.
Definition readFileSync (file : str) : prog str := Vis (ReadFileSync file) of_result.
Definition writeFileSync (file data : str) : prog unit :=
  Vis (WriteFileSync file data) of_result.
Definition unlinkSync (file : str) : prog unit := Vis (UnlinkSync file) of_result.
Definition existsSync (dir : str) : prog bool := call (ExistsSync dir).
Definition mkdirSync_recursive (dir : str) : prog unit :=
  Vis (MkdirSyncRecursive dir) of_result.
Definition console_log (msg : str) : prog unit := call (ConsoleLog msg).
Definition console_warn (msg : str) : prog unit := call (ConsoleWarn msg).

(** [spawn(command, [], { stdio: ['ignore', 'pipe', 'pipe'], shell: true })]
    together with the registration of the listeners, that is the part of
    the promise executor in which nothing has been listened to yet. It
    throws when [spawn] itself throws (an argument list that is too long,
    for one) and when [spawn] hands back a child without streams (no file
    descriptor left), on which [claude.stdout.on] throws. Otherwise the
    answer is what the child emits once the listeners are in place. *)
Definition spawn (command : str) : prog (list ChildEvent) :=
  Vis (Spawn command) of_result.

(** One call together with the answer it got. *)
Record event := Ev { ev_op : op; ev_resp : resp ev_op }.

(** An environment answers every call from its current state. *)
Record Env := mkEnv {
  St : Type;
  respond : forall o : op, St -> resp o * St
}.

(** How an invocation ends. For an [async] function [Returned] is the
    fulfilled promise and [Threw] the rejected one. *)
Inductive outcome (A : Type) : Type :=
| Returned (a : A)
| Threw (e : Error)
| Hangs.
Arguments Returned {A} a.
Arguments Threw {A} e.
Arguments Hangs {A}.

Fixpoint run {A} (E : Env) (p : prog A) (s : St E) : list event * outcome A * St E :=
  match p with
  | Ret a => ([], Returned a, s)
  | Throw e => ([], Threw e, s)
  | Hang => ([], Hangs, s)
  | Vis o k =>
      let '(x, s1) := respond E o s in
      let '(tr, r, s2) := run E (k x) s1 in
      (Ev o x :: tr, r, s2)
  end.


(* ===================================================================== *)
(** ** The analyzer *)
(* ===================================================================== *)

(** Node's pure path functions and the static HTML around the diagram in
    the viewer document ([htmlContent] is [viewer_head], the diagram,
    [viewer_tail]). *)
Class Platform := {
  path_join : str -> str -> str;
  path_resolve : str -> str -> str;
  path_relative : str -> str -> str;
  viewer_head : str;
  viewer_tail : str
}.

Record Options := mkOptions {
  filePatterns : list str;
  excludePatterns : list str;
  maxFileSize : N
}.

(** [this] *)
Record CodeToFSMAnalyzer := mkAnalyzer {
  workspacePath : str;
  options : Options
}.

(** The [options] argument of the constructor; [None] is a missing
    property. *)
Record OptionsArg := mkOptionsArg {
  arg_filePatterns : option (list str);
  arg_excludePatterns : option (list str);
  arg_maxFileSize : option N
}.

Definition default_filePatterns : list str :=
  [js "**/*.py"; js "**/*.js"; js "**/*.ts"; js "**/*.cpp"; js "**/*.c"; js "**/*.java"].
Definition default_excludePatterns : list str :=
  [js "**/node_modules/**"; js "**/venv/**"; js "**/build/**"; js "**/.git/**"].

(** [a || b] on a number: [0] is falsy. *)
Definition or_default_N (a : option N) (b : N) : N :=
  match a with
  | Some n => if n =? 0 then b else n
  | None => b
  end.

Definition constructor (workspacePath : str) (opts : OptionsArg) : CodeToFSMAnalyzer :=
  {| workspacePath := workspacePath;
     options :=
       {| filePatterns := default default_filePatterns (arg_filePatterns opts);
          excludePatterns := default default_excludePatterns (arg_excludePatterns opts);
          maxFileSize := or_default_N (arg_maxFileSize opts) 100000 |} |}.

Record FileRecord := mkFile { path : str; content : str }.

Record AnalysisResult := mkResult {
  analysis : str;
  mermaidDiagram : str;
  filesAnalyzed : list str
}.

Record SavedPaths := mkSaved {
  mermaidPath : str;
  analysisPath : str;
  htmlPath : option str
}.

Section Analyzer.
Context `{Platform}.
Variable this : CodeToFSMAnalyzer.

(** *** WorkspaceScanner *)

(** [for (const pattern of this.options.filePatterns)] *)
Fixpoint scan_patterns (patterns : list str) (files : list str) : prog (list str) :=
  match patterns with
  | [] => Ret files
  | pattern :: rest =>
      matches <- glob pattern (workspacePath this) (excludePatterns (options this)) ;;
      scan_patterns rest (files ++ matches)
  end.

(** [for (const file of files)]: filter by file size. *)
Fixpoint scan_sizes (files : list str) (validFiles : list str) : prog (list str) :=
  match files with
  | [] => Ret validFiles
  | file :: rest =>
      stats <- statSync file ;;
      if size stats <=? maxFileSize (options this)
      then scan_sizes rest (validFiles ++ [file])
      else scan_sizes rest validFiles
  end.

Definition scanWorkspace : prog (list str) :=
  files <- scan_patterns (filePatterns (options this)) [] ;;
  scan_sizes files [].

(** *** ContentReader *)

Definition read_warning (filePath : str) (error : Error) : str :=
  js "Warning: Could not read " ++ filePath ++ js ": " ++ message error.

(** The body of the loop of [readFiles]: one [try]/[catch]. *)
Definition read_one (filePath : str) (fileContents : list FileRecord)
  : prog (list FileRecord) :=
  try_catch
    (content <- readFileSync filePath ;;
     let relativePath := path_relative (workspacePath this) filePath in
     Ret (fileContents ++ [ {| path := relativePath; content := content |} ]))
    (fun error =>
       console_warn (read_warning filePath error) ;;
       Ret fileContents).

Fixpoint read_loop (filePaths : list str) (fileContents : list FileRecord)
  : prog (list FileRecord) :=
  match filePaths with
  | [] => Ret fileContents
  | filePath :: rest =>
      fileContents' <- read_one filePath fileContents ;;
      read_loop rest fileContents'
  end.

Definition readFiles (filePaths : list str) : prog (list FileRecord) :=
  read_loop filePaths [].

(** *** PromptBuilder *)

Definition file_summary (f : FileRecord) : str :=
  js "File: " ++ path f ++ [LF] ++ fence ++ [LF] ++ content f ++ [LF] ++ fence ++ [LF].

Definition prompt_head : str := js
"You are analyzing a codebase to extract state machine patterns. 

Here are the relevant files from the project:

".

Definition prompt_task : str := js
"

Your task is to:
1. Identify any state machine logic, state transitions, or finite state machine patterns
2. Extract the states, events/transitions, and their relationships
3. Generate a Mermaid stateDiagram-v2 that represents this state machine

".

Definition prompt_tail : str :=
js "
Look for patterns like:
- Explicit state variables or enums (e.g., state = " ++ [DQUOTE] ++ js "IDLE" ++ [DQUOTE] ++ js ", State.RUNNING)
- State transition functions (e.g., transition_to(), setState())
- Switch/case statements on state variables
- If/else chains checking state
- Event handlers that change state
- Robot control states (idle, moving, stopped, error, etc.)

Output format:
1. First, provide a brief explanation of what state machine you found
2. Then output ONLY the Mermaid diagram code, starting with " ++ [DQUOTE] ++ js "stateDiagram-v2" ++ [DQUOTE] ++ js "
3. Use clear, descriptive state names
4. Label transitions with the events/conditions that trigger them

" ++ js "Example output format:
I found a robot control state machine with 4 states...

stateDiagram-v2
    [*] --> Idle
    Idle --> Moving: start_command
    Moving --> Stopped: stop_command
    Moving --> Error: sensor_fault
    Error --> Idle: reset
    Stopped --> [*]
".

(** [if (focusArea)]: [null] and the empty string are falsy. *)
Definition truthy_str (s : option str) : option str :=
  match s with
  | Some (c :: r) => Some (c :: r)
  | _ => None
  end.

Definition createAnalysisPrompt (files : list FileRecord) (focusArea : option str) : str :=
  let filesSummary :=
    join ([LF] ++ js "---" ++ [LF; LF]) (List.map file_summary files) in
  let prompt := prompt_head ++ filesSummary ++ prompt_task in
  let prompt :=
    match truthy_str focusArea with
    | Some focus => prompt ++ [LF] ++ js "Focus specifically on: " ++ focus ++ [LF]
    | None => prompt
    end in
  prompt ++ prompt_tail.

(** *** OracleInvoker *)

(** [try { fs.unlinkSync(tmpFile); } catch (err) { }] *)
Definition cleanup (tmpFile : str) : prog unit :=
  try_catch (unlinkSync tmpFile) (fun _ => Ret tt).

(** [`${code}`] *)
Definition show_code (code : option Z) : str :=
  match code with
  | Some z => show_Z z
  | None => js "null"
  end.

Definition exit_error (code : option Z) (errorOutput : str) : Error :=
  mkError (js "Claude CLI exited with code " ++ show_code code ++ js ": " ++ errorOutput).

Definition start_error (err : Error) : Error :=
  mkError (js "Failed to start Claude CLI: " ++ message err ++
           js ". Make sure 'claude' is installed and in your PATH.").

(** [code !== 0] *)
Definition code_nonzero (code : option Z) : bool :=
  match code with
  | Some z => negb (z =? 0)%Z
  | None => true
  end.

(** [resolve(value)] and [reject(error)]: the first of them settles the
    promise, on a settled promise they do nothing. The promise is [None]
    while it is pending. *)
Definition settle (promise : option (result str)) (r : result str)
  : option (result str) :=
  match promise with
  | Some first => Some first
  | None => Some r
  end.

(** The listeners registered on the child, run over the events it emits.
    ['data'] on either stream appends to its buffer. ['close'] and
    ['error'] each clean up and then resolve or reject. All listeners
    stay registered as long as the child emits: an event that comes after
    the promise was settled still runs its listener, with its cleanup,
    and the calls it makes are calls of the invocation. A child that
    emits neither ['close'] nor ['error'] leaves the promise pending. *)
Fixpoint listen (tmpFile : str) (events : list ChildEvent) (output errorOutput : str)
    (promise : option (result str)) : prog str :=
  match events with
  | [] =>
      match promise with
      | Some r => of_result r
      | None => Hang
      end
  | StdoutData data :: rest => listen tmpFile rest (output ++ data) errorOutput promise
  | StderrData data :: rest => listen tmpFile rest output (errorOutput ++ data) promise
  | Close code :: rest =>
      cleanup tmpFile ;;
      listen tmpFile rest output errorOutput
        (settle promise
           (if code_nonzero code
            then Thrown (exit_error code errorOutput)
            else Ok (trim output)))
  | SpawnError err :: rest =>
      cleanup tmpFile ;;
      listen tmpFile rest output errorOutput (settle promise (Thrown (start_error err)))
  end.

Definition tmp_name (now : N) : str := js "claude-prompt-" ++ show_N now ++ js ".txt".

Definition shell_command (isWindows : bool) (tmpFile : str) : str :=
  if isWindows
  then js "claude.cmd --print < " ++ [DQUOTE] ++ tmpFile ++ [DQUOTE]
  else js "claude --print < " ++ [DQUOTE] ++ tmpFile ++ [DQUOTE].

Definition str_eqb (a b : str) : bool := bool_decide (a = b).

Definition analyzeWithClaude (prompt : str) : prog str :=
  console_log ([55357; 56741; 65039] ++ js "  Using Claude CLI...") ;;
  tmpdir <- call OsTmpdir ;;
  now <- call DateNow ;;
  let tmpFile := path_join tmpdir (tmp_name now) in
  writeFileSync tmpFile prompt ;;
  platform <- call ProcessPlatform ;;
  let isWindows := str_eqb platform (js "win32") in
  let command := shell_command isWindows tmpFile in
  events <- spawn command ;;
  listen tmpFile events [] [] None.

(** *** The main workflow *)

Definition no_files : Error := mkError (js "No files found to analyze").

Definition rule : str := repeat_str (js "=") 60.

Definition analyze (focusArea : option str) (selectedFiles : option (list str))
  : prog AnalysisResult :=
  console_log ([55357; 56589] ++ js " Scanning workspace...") ;;
  filePaths <-
    match selectedFiles with
    | Some sel => Ret (List.map (fun f => path_resolve (workspacePath this) f) sel)
    | None => scanWorkspace
    end ;;
  console_log ([55357; 56513] ++ js " Found " ++ show_N (N.of_nat (length filePaths))
               ++ js " files to analyze") ;;
  if Nat.eqb (length filePaths) 0 then Throw no_files
  else
    console_log ([55357; 56534] ++ js " Reading file contents...") ;;
    files <- readFiles filePaths ;;
    console_log ([55358; 56598] ++ js " Calling Claude to analyze state machine patterns...") ;;
    let prompt := createAnalysisPrompt files focusArea in
    response <- analyzeWithClaude prompt ;;
    console_log ([9989] ++ js " Analysis complete!") ;;
    console_log ([LF] ++ rule) ;;
    console_log (js "CLAUDE'S ANALYSIS:") ;;
    console_log (rule ++ [LF]) ;;
    console_log response ;;
    console_log ([LF] ++ rule ++ [LF]) ;;
    mermaidDiagram <- of_result (extractMermaidDiagram response) ;;
    Ret {| analysis := response;
           mermaidDiagram := mermaidDiagram;
           filesAnalyzed := List.map path files |}.

(** [analyze] from the point where [filePaths] is known: the rest of the
    body, used to reason about both ways of getting the paths at once
    (see [analyze_unfold]). *)
Definition analyze_from (focusArea : option str) (filePaths : list str)
  : prog AnalysisResult :=
  console_log ([55357; 56513] ++ js " Found " ++ show_N (N.of_nat (length filePaths))
               ++ js " files to analyze") ;;
  if Nat.eqb (length filePaths) 0 then Throw no_files
  else
    console_log ([55357; 56534] ++ js " Reading file contents...") ;;
    files <- readFiles filePaths ;;
    console_log ([55358; 56598] ++ js " Calling Claude to analyze state machine patterns...") ;;
    let prompt := createAnalysisPrompt files focusArea in
    response <- analyzeWithClaude prompt ;;
    console_log ([9989] ++ js " Analysis complete!") ;;
    console_log ([LF] ++ rule) ;;
    console_log (js "CLAUDE'S ANALYSIS:") ;;
    console_log (rule ++ [LF]) ;;
    console_log response ;;
    console_log ([LF] ++ rule ++ [LF]) ;;
    mermaidDiagram <- of_result (extractMermaidDiagram response) ;;
    Ret {| analysis := response;
           mermaidDiagram := mermaidDiagram;
           filesAnalyzed := List.map path files |}.

(** *** ArtifactWriter *)

Definition generateHTMLViewer (mermaidDiagram outputDir : str) : prog str :=
  let htmlContent := viewer_head ++ mermaidDiagram ++ viewer_tail in
  let htmlPath := path_join outputDir (js "view-diagram.html") in
  writeFileSync htmlPath htmlContent ;;
  Ret htmlPath.

Definition fullAnalysis (results : AnalysisResult) : str :=
  js "Files Analyzed:" ++ [LF] ++ join [LF] (filesAnalyzed results) ++ [LF; LF] ++
  js "Analysis:" ++ [LF] ++ analysis results.

(** [if (!fs.existsSync(outputDir)) fs.mkdirSync(outputDir, { recursive: true })] *)
Definition ensure_dir (outputDir : str) : prog unit :=
  found <- existsSync outputDir ;;
  if found then Ret tt else mkdirSync_recursive outputDir.

Definition saveResults (results : AnalysisResult) (outputDir : str) : prog SavedPaths :=
  ensure_dir outputDir ;;
  let mermaidPath := path_join outputDir (js "state-machine.mmd") in
  writeFileSync mermaidPath (mermaidDiagram results) ;;
  console_log ([55357; 56510] ++ js " Mermaid diagram saved to: " ++ mermaidPath) ;;
  let analysisPath := path_join outputDir (js "analysis.txt") in
  writeFileSync analysisPath (fullAnalysis results) ;;
  console_log ([55357; 56510] ++ js " Full analysis saved to: " ++ analysisPath) ;;
  htmlPath <- generateHTMLViewer (mermaidDiagram results) outputDir ;;
  console_log ([55356; 57104] ++ js " HTML viewer saved to: " ++ htmlPath) ;;
  Ret {| mermaidPath := mermaidPath; analysisPath := analysisPath;
         htmlPath := Some htmlPath |}.

(** The copy of [saveResults] in the earlier version of the analyzer,
    which has no viewer document. *)
Definition saveResults_earlier (results : AnalysisResult) (outputDir : str)
  : prog SavedPaths :=
  ensure_dir outputDir ;;
  let mermaidPath := path_join outputDir (js "state-machine.mmd") in
  writeFileSync mermaidPath (mermaidDiagram results) ;;
  console_log ([55357; 56510] ++ js " Mermaid diagram saved to: " ++ mermaidPath) ;;
  let analysisPath := path_join outputDir (js "analysis.txt") in
  writeFileSync analysisPath (fullAnalysis results) ;;
  console_log ([55357; 56510] ++ js " Full analysis saved to: " ++ analysisPath) ;;
  Ret {| mermaidPath := mermaidPath; analysisPath := analysisPath;
         htmlPath := None |}.

End Analyzer.

(* ===================================================================== *)
(** ** Reading a trace *)
(* ===================================================================== *)

Definition calls (tr : list event) : list op := List.map ev_op tr.

(** [fs.readFileSync] calls: the file and the answer. *)
Definition read_attempt (e : event) : option (str * result str) :=
  match ev_op e as o return resp o -> option (str * result str) with
  | ReadFileSync file => fun x => Some (file, x)
  | _ => fun _ => None
  end (ev_resp e).
Definition read_attempts (tr : list event) := omap read_attempt tr.

(** [fs.statSync] calls. *)
Definition stat_attempt (e : event) : option (str * result Stats) :=
  match ev_op e as o return resp o -> option (str * result Stats) with
  | StatSync file => fun x => Some (file, x)
  | _ => fun _ => None
  end (ev_resp e).
Definition stat_attempts (tr : list event) := omap stat_attempt tr.

(** [glob] calls: pattern, [cwd], [ignore], and the answer. *)
Definition glob_attempt (e : event) : option (str * str * list str * result (list str)) :=
  match ev_op e as o return resp o -> option (str * str * list str * result (list str)) with
  | Glob pattern cwd ignore => fun x => Some (pattern, cwd, ignore, x)
  | _ => fun _ => None
  end (ev_resp e).
Definition glob_attempts (tr : list event) := omap glob_attempt tr.

(** [fs.writeFileSync] calls: file, data, and the answer. *)
Definition write_attempt (e : event) : option (str * str * result unit) :=
  match ev_op e as o return resp o -> option (str * str * result unit) with
  | WriteFileSync file data => fun x => Some (file, data, x)
  | _ => fun _ => None
  end (ev_resp e).
Definition write_attempts (tr : list event) := omap write_attempt tr.

(** [spawn] calls: the command and the answer. *)
Definition spawn_attempt (e : event) : option (str * result (list ChildEvent)) :=
  match ev_op e as o return resp o -> option (str * result (list ChildEvent)) with
  | Spawn command => fun x => Some (command, x)
  | _ => fun _ => None
  end (ev_resp e).
Definition spawn_attempts (tr : list event) := omap spawn_attempt tr.

(** The children that were started: the command and the events of the
    child. *)
Definition child_of (e : event) : option (str * list ChildEvent) :=
  match spawn_attempt e with
  | Some (command, Ok events) => Some (command, events)
  | _ => None
  end.
Definition spawned (tr : list event) := omap child_of tr.

(** [fs.unlinkSync] calls: the file and the answer. *)
Definition unlink_attempt (e : event) : option (str * result unit) :=
  match ev_op e as o return resp o -> option (str * result unit) with
  | UnlinkSync file => fun x => Some (file, x)
  | _ => fun _ => None
  end (ev_resp e).
Definition unlink_attempts (tr : list event) := omap unlink_attempt tr.

(** [console.warn] calls. *)
Definition warning (e : event) : option str :=
  match ev_op e with
  | ConsoleWarn msg => Some msg
  | _ => None
  end.
Definition warnings (tr : list event) := omap warning tr.

(** The error of a call that threw. *)
Definition of_thrown {A} (r : result A) : option Error :=
  match r with
  | Ok _ => None
  | Thrown e => Some e
  end.

Definition thrown (e : event) : option Error :=
  match ev_op e as o return resp o -> option Error with
  | Glob _ _ _ => of_thrown
  | StatSync _ => of_thrown
  | ReadFileSync _ => of_thrown
  | WriteFileSync _ _ => of_thrown
  | UnlinkSync _ => of_thrown
  | MkdirSyncRecursive _ => of_thrown
  | Spawn _ => of_thrown
  | _ => fun _ => None
  end (ev_resp e).

(** Events of [readFiles]: a read or a warning. *)
Definition reads_or_warns (e : event) : Prop :=
  match ev_op e with
  | ReadFileSync _ | ConsoleWarn _ => True
  | _ => False
  end.

(** Events of [scanWorkspace]: a [glob] call or a status lookup. *)
Definition globs_or_stats (e : event) : Prop :=
  match ev_op e with
  | Glob _ _ _ | StatSync _ => True
  | _ => False
  end.

(** The records [readFiles] builds from the answers to its reads, and the
    warnings it prints. *)
Definition record_of `{Platform} (this : CodeToFSMAnalyzer) (a : str * result str)
  : option FileRecord :=
  match a.2 with
  | Ok content => Some {| path := path_relative (workspacePath this) a.1; content := content |}
  | Thrown _ => None
  end.

Definition warning_of (a : str * result str) : option str :=
  match a.2 with
  | Ok _ => None
  | Thrown error => Some (read_warning a.1 error)
  end.

Definition unreadable (a : str * result str) : bool :=
  match a.2 with
  | Ok _ => false
  | Thrown _ => true
  end.

(** The files [scanWorkspace] keeps, from the answers to its status
    lookups. *)
Definition kept (this : CodeToFSMAnalyzer) (a : str * result Stats) : option str :=
  match a.2 with
  | Ok stats => if size stats <=? maxFileSize (options this) then Some a.1 else None
  | Thrown _ => None
  end.

(** The [glob] call [scanWorkspace] makes for an include pattern. *)
Definition asked (this : CodeToFSMAnalyzer) (pattern : str) : str * str * list str :=
  (pattern, workspacePath this, excludePatterns (options this)).

(** The matches of the [glob] calls that succeeded, in order. *)
Definition matched (a : str * str * list str * result (list str)) : list str :=
  match a.2 with
  | Ok matches => matches
  | Thrown _ => []
  end.

(** The buffers the ['data'] listeners have built from a run of events. *)
Definition stdout_of (e : ChildEvent) : str :=
  match e with StdoutData data => data | _ => [] end.
Definition stderr_of (e : ChildEvent) : str :=
  match e with StderrData data => data | _ => [] end.
Definition is_data (e : ChildEvent) : bool :=
  match e with StdoutData _ | StderrData _ => true | _ => false end.

(** The events that run a cleanup: ['close'] and ['error']. *)
Definition ends (e : ChildEvent) : bool := negb (is_data e).

(** The promise of [analyzeWithClaude] as the listeners settle it, from
    the pending state: the first ['close'] or ['error'] decides. It is
    the outcome of [listen], its cleanup calls left out. *)
Fixpoint settled (events : list ChildEvent) (output errorOutput : str) : outcome str :=
  match events with
  | [] => Hangs
  | StdoutData data :: rest => settled rest (output ++ data) errorOutput
  | StderrData data :: rest => settled rest output (errorOutput ++ data)
  | Close code :: _ =>
      if code_nonzero code then Threw (exit_error code errorOutput)
      else Returned (trim output)
  | SpawnError err :: _ => Threw (start_error err)
  end.

(** The errors thrown by the calls of a trace. *)
Definition failures (tr : list event) : list Error := omap thrown tr.

(** The calls of a run of [saveResults] in which nothing fails, given the
    answer [found] of [fs.existsSync]: the directory, then the diagram, the
    report and the viewer document, each write followed by its log line. *)
Definition save_script `{Platform} (found : bool) (results : AnalysisResult)
    (outputDir : str) : list op :=
  ExistsSync outputDir ::
  (if found then [] else [MkdirSyncRecursive outputDir]) ++
  [ WriteFileSync (path_join outputDir (js "state-machine.mmd")) (mermaidDiagram results);
    ConsoleLog ([55357; 56510] ++ js " Mermaid diagram saved to: "
                ++ path_join outputDir (js "state-machine.mmd"));
    WriteFileSync (path_join outputDir (js "analysis.txt")) (fullAnalysis results);
    ConsoleLog ([55357; 56510] ++ js " Full analysis saved to: "
                ++ path_join outputDir (js "analysis.txt"));
    WriteFileSync (path_join outputDir (js "view-diagram.html"))
                  (viewer_head ++ mermaidDiagram results ++ viewer_tail);
    ConsoleLog ([55356; 57104] ++ js " HTML viewer saved to: "
                ++ path_join outputDir (js "view-diagram.html")) ].

(** The same for the earlier version: no viewer document. *)
Definition save_script_earlier `{Platform} (found : bool) (results : AnalysisResult)
    (outputDir : str) : list op :=
  ExistsSync outputDir ::
  (if found then [] else [MkdirSyncRecursive outputDir]) ++
  [ WriteFileSync (path_join outputDir (js "state-machine.mmd")) (mermaidDiagram results);
    ConsoleLog ([55357; 56510] ++ js " Mermaid diagram saved to: "
                ++ path_join outputDir (js "state-machine.mmd"));
    WriteFileSync (path_join outputDir (js "analysis.txt")) (fullAnalysis results);
    ConsoleLog ([55357; 56510] ++ js " Full analysis saved to: "
                ++ path_join outputDir (js "analysis.txt")) ].

(* ===================================================================== *)
(** ** An in-memory file system *)
(* ===================================================================== *)

(** Regular files with their content, and directories. *)
Record MemFs := mkFs { files : gmap str str; dirs : gset str }.

(** What lies outside the file system: the clock, the temporary
    directory, the platform name, the matcher, the child. *)
Record Outside := mkOutside {
  out_tmpdir : str;
  out_now : N;
  out_platform : str;
  out_glob : str -> str -> list str -> result (list str);
  out_child : str -> result (list ChildEvent)
}.

Definition enoent : Error := mkError (js "ENOENT: no such file or directory").
Definition eisdir : Error := mkError (js "EISDIR: illegal operation on a directory").

Definition mem_respond (w : Outside) (o : op) (fs : MemFs) : resp o * MemFs :=
  match o as o return resp o * MemFs with
  | Glob pattern cwd ignore => (out_glob w pattern cwd ignore, fs)
  | StatSync file =>
      (match files fs !! file with
       | Some data => Ok (mkStats (N.of_nat (length data)) false)
       | None => if bool_decide (file ∈ dirs fs) then Ok (mkStats 4096 true)
                 else Thrown enoent
       end, fs)
  | ReadFileSync file =>
      (match files fs !! file with
       | Some data => Ok data
       | None => if bool_decide (file ∈ dirs fs) then Thrown eisdir else Thrown enoent
       end, fs)
  | WriteFileSync file data =>
      if bool_decide (file ∈ dirs fs) then (Thrown eisdir, fs)
      else (Ok tt, mkFs (<[file := data]> (files fs)) (dirs fs))
  | UnlinkSync file =>
      (match files fs !! file with
       | Some _ => Ok tt
       | None => Thrown enoent
       end, mkFs (delete file (files fs)) (dirs fs))
  | ExistsSync dir =>
      (bool_decide (is_Some (files fs !! dir)) || bool_decide (dir ∈ dirs fs), fs)
  | MkdirSyncRecursive dir => (Ok tt, mkFs (files fs) ({[dir]} ∪ dirs fs))
  | ConsoleLog _ => (tt, fs)
  | ConsoleWarn _ => (tt, fs)
  | OsTmpdir => (out_tmpdir w, fs)
  | DateNow => (out_now w, fs)
  | ProcessPlatform => (out_platform w, fs)
  | Spawn command => (out_child w command, fs)
  end.

Definition memfs (w : Outside) : Env := {| St := MemFs; respond := mem_respond w |}.

(** Stand-ins for Node's path functions on absolute POSIX paths without
    [.] and [..] segments, and for the viewer's HTML; used in examples. *)
Definition posix_relative (from to : str) : str :=
  if starts_with (from ++ js "/") to then drop (length from + 1) to else to.

Definition posix_like : Platform :=
  {| path_join := fun a b => a ++ js "/" ++ b;
     path_resolve := fun a b => a ++ js "/" ++ b;
     path_relative := posix_relative;
     viewer_head := js "<div class='mermaid'>";
     viewer_tail := js "</div>" |}.

(* ===================================================================== *)
(** ** Example workspaces *)
(* ===================================================================== *)

Definition quiet : Outside :=
  {| out_tmpdir := js "/tmp"; out_now := 1700000000000; out_platform := js "linux";
     out_glob := fun _ _ _ => Ok []; out_child := fun _ => Ok [] |}.

(** A workspace [/w] with a file [a.js] and a directory [lib.js]; the
    include patterns [**/*.js] and [**/a.*] both match [a.js]. *)
Definition overlap_fs : MemFs :=
  {| files := {[ js "/w/a.js" := js "let state = 0;" ]};
     dirs := {[ js "/w/lib.js" ]} |}.

Definition overlap_glob (pattern cwd : str) (ignore : list str) : result (list str) :=
  if str_eqb pattern (js "**/*.js") then Ok [js "/w/a.js"; js "/w/lib.js"]
  else if str_eqb pattern (js "**/a.*") then Ok [js "/w/a.js"]
  else Ok [].

Definition overlap_world : Outside :=
  {| out_tmpdir := out_tmpdir quiet; out_now := out_now quiet;
     out_platform := out_platform quiet;
     out_glob := overlap_glob; out_child := out_child quiet |}.

Definition overlap_analyzer : CodeToFSMAnalyzer :=
  constructor (js "/w")
    {| arg_filePatterns := Some [js "**/*.js"; js "**/a.*"];
       arg_excludePatterns := None; arg_maxFileSize := None |}.

(** A workspace [/w] in which the matcher reports [gone.js] and [a.js],
    and [gone.js] has no status (a dangling link, or a file removed after
    it was listed). *)
Definition dangling_fs : MemFs :=
  {| files := {[ js "/w/a.js" := js "let state = 0;" ]}; dirs := ∅ |}.

Definition dangling_glob (pattern cwd : str) (ignore : list str) : result (list str) :=
  if str_eqb pattern (js "**/*.js") then Ok [js "/w/gone.js"; js "/w/a.js"]
  else Ok [].

Definition dangling_world : Outside :=
  {| out_tmpdir := out_tmpdir quiet; out_now := out_now quiet;
     out_platform := out_platform quiet;
     out_glob := dangling_glob; out_child := out_child quiet |}.

(** A child that prints white space only and exits with code 0. *)
Definition blank_world : Outside :=
  {| out_tmpdir := out_tmpdir quiet; out_now := out_now quiet;
     out_platform := out_platform quiet; out_glob := out_glob quiet;
     out_child := fun _ => Ok [StdoutData (js "  "); StdoutData [LF]; Close (Some 0%Z)] |}.

(** A child that complains on its standard error and exits with code 1. *)
Definition failing_world : Outside :=
  {| out_tmpdir := out_tmpdir quiet; out_now := out_now quiet;
     out_platform := out_platform quiet; out_glob := out_glob quiet;
     out_child := fun _ => Ok [StderrData (js "not logged in"); Close (Some 1%Z)] |}.

(** A shell that cannot be started: Node emits ['error'], then ['close']
    with the negative error number as the code. *)
Definition unstartable_world : Outside :=
  {| out_tmpdir := out_tmpdir quiet; out_now := out_now quiet;
     out_platform := out_platform quiet; out_glob := out_glob quiet;
     out_child := fun _ => Ok [SpawnError (mkError (js "spawn /bin/sh ENOENT"));
                               Close (Some (-2)%Z)] |}.

Definition empty_fs : MemFs := {| files := ∅; dirs := ∅ |}.

(** A child that replies with a diagram and exits with code 0. *)
Definition reply : str := js "stateDiagram-v2" ++ [LF] ++ js "  [*] --> Idle".

Definition reply_world : Outside :=
  {| out_tmpdir := out_tmpdir quiet; out_now := out_now quiet;
     out_platform := out_platform quiet; out_glob := out_glob quiet;
     out_child := fun _ => Ok [StdoutData reply; StdoutData [LF]; Close (Some 0%Z)] |}.

(** A workspace [/w] and an analyzer with a size ceiling of 10 that
    excludes [**/vendor/**]; [vendor/big.py] is excluded and too large. *)
Definition strict_fs : MemFs :=
  {| files := {[ js "/w/vendor/big.py" := js "state = 'IDLE' # more than ten" ]};
     dirs := {[ js "/w"; js "/w/vendor" ]} |}.

Definition strict_analyzer : CodeToFSMAnalyzer :=
  constructor (js "/w")
    {| arg_filePatterns := None;
       arg_excludePatterns := Some [js "**/vendor/**"];
       arg_maxFileSize := Some 10 |}.

(** The run of [analyze] on the one selected file [gone.py], which does
    not exist, with the child that replies with a diagram. *)
Definition unreadable_run
  : list event * outcome AnalysisResult * MemFs :=
  run (memfs reply_world)
      (@analyze posix_like
         (constructor (js "/w")
            {| arg_filePatterns := None; arg_excludePatterns := None;
               arg_maxFileSize := None |})
         None (Some [js "gone.py"]))
      empty_fs.

(** A workspace [/w] with two readable files. *)
Definition two_files_fs : MemFs :=
  {| files := {[ js "/w/a.py" := js "state = 'IDLE'"; js "/w/b.py" := js "state = 'RUN'" ]};
     dirs := {[ js "/w" ]} |}.

(** An output directory in which [analysis.txt] is a directory, so that
    the report cannot be written. *)
Definition blocked_fs : MemFs :=
  {| files := ∅; dirs := {[ js "/out"; js "/out/analysis.txt" ]} |}.

Definition sample_result : AnalysisResult :=
  {| analysis := js "One state." ++ [LF; LF] ++ reply;
     mermaidDiagram := reply;
     filesAnalyzed := [js "a.py"; js "b.py"] |}.

Definition default_analyzer : CodeToFSMAnalyzer :=
  constructor (js "/w")
    {| arg_filePatterns := None; arg_excludePatterns := None; arg_maxFileSize := None |}.

(* ===================================================================== *)
(** ** Further views and example worlds *)
(* ===================================================================== *)

(** A [glob] call that did not throw. *)
Definition glob_ok (a : str * str * list str * result (list str)) : Prop :=
  of_thrown a.2 = None.

(** A matcher that fails on every pattern. *)
Definition eacces : Error := mkError (js "EACCES: permission denied, scandir /w").

Definition broken_glob_world : Outside :=
  {| out_tmpdir := out_tmpdir quiet; out_now := out_now quiet;
     out_platform := out_platform quiet;
     out_glob := fun _ _ _ => Thrown eacces; out_child := out_child quiet |}.

(** A workspace [/w] with a file of 10 code units and one of 11, and an
    analyzer with a ceiling of 10. *)
Definition ceiling_fs : MemFs :=
  {| files := {[ js "/w/ten.py" := js "0123456789"; js "/w/eleven.py" := js "0123456789A" ]};
     dirs := {[ js "/w" ]} |}.

Definition ceiling_glob (pattern cwd : str) (ignore : list str) : result (list str) :=
  if str_eqb pattern (js "**/*.py") then Ok [js "/w/ten.py"; js "/w/eleven.py"]
  else Ok [].

Definition ceiling_world : Outside :=
  {| out_tmpdir := out_tmpdir quiet; out_now := out_now quiet;
     out_platform := out_platform quiet;
     out_glob := ceiling_glob; out_child := out_child quiet |}.

Definition ceiling_analyzer : CodeToFSMAnalyzer :=
  constructor (js "/w")
    {| arg_filePatterns := None; arg_excludePatterns := None; arg_maxFileSize := Some 10 |}.

(** The first line [analyzeWithClaude] prints. *)
Definition oracle_banner : str := [55357; 56741; 65039] ++ js "  Using Claude CLI...".

(** A child that prints and never ends. *)
Definition hanging_world : Outside :=
  {| out_tmpdir := out_tmpdir quiet; out_now := out_now quiet;
     out_platform := out_platform quiet; out_glob := out_glob quiet;
     out_child := fun _ => Ok [StdoutData (js "thinking"); StderrData (js "...")] |}.

(** A file system in which the path of the temporary file is a
    directory, so that the prompt cannot be written. *)
Definition tmp_blocked_fs : MemFs :=
  {| files := ∅; dirs := {[ js "/tmp"; js "/tmp/claude-prompt-1700000000000.txt" ]} |}.

(** A Windows system on which the shell cannot be started. *)
Definition no_shell : list ChildEvent :=
  [SpawnError (mkError (js "spawn cmd.exe ENOENT")); Close (Some (-4058)%Z)].

Definition windows_world : Outside :=
  {| out_tmpdir := out_tmpdir quiet; out_now := out_now quiet;
     out_platform := js "win32"; out_glob := out_glob quiet;
     out_child := fun _ => Ok no_shell |}.

(** The calls that change the file system. *)
Definition mutating (o : op) : option op :=
  match o with
  | WriteFileSync file data => Some (WriteFileSync file data)
  | UnlinkSync file => Some (UnlinkSync file)
  | MkdirSyncRecursive dir => Some (MkdirSyncRecursive dir)
  | _ => None
  end.
Definition mutations (tr : list event) : list op := omap (fun e => mutating (ev_op e)) tr.

(** What [analyze] makes of the events of the child it spawned, given
    the file records it has read: the promise of the oracle, then the
    extraction. *)
Definition analysis_outcome (files : list FileRecord) (events : list ChildEvent)
  : outcome AnalysisResult :=
  match settled events [] [] with
  | Returned response =>
      match extractMermaidDiagram response with
      | Ok diagram =>
          Returned {| analysis := response; mermaidDiagram := diagram;
                      filesAnalyzed := List.map path files |}
      | Thrown e => Threw e
      end
  | Threw e => Threw e
  | Hangs => Hangs
  end.

(** An analyzer with an empty list of include patterns. *)
Definition no_pattern_analyzer (workspacePath : str) (excludes : option (list str))
    (ceiling : option N) : CodeToFSMAnalyzer :=
  constructor workspacePath
    {| arg_filePatterns := Some []; arg_excludePatterns := excludes;
       arg_maxFileSize := ceiling |}.

(** A workspace [/w] with [b.py] and [a.py], which the matcher reports
    in that order, and a child that replies with a diagram. *)
Definition ordered_glob (pattern cwd : str) (ignore : list str) : result (list str) :=
  if str_eqb pattern (js "**/*.py") then Ok [js "/w/b.py"; js "/w/a.py"]
  else Ok [].

Definition ordered_world : Outside :=
  {| out_tmpdir := out_tmpdir quiet; out_now := out_now quiet;
     out_platform := out_platform quiet;
     out_glob := ordered_glob; out_child := out_child reply_world |}.

(** The run of [analyze] on the selected file [a.py] of the workspace
    with two files, with the child that replies with a diagram. *)
Definition selected_run : list event * outcome AnalysisResult * MemFs :=
  run (memfs reply_world) (@analyze posix_like default_analyzer None (Some [js "a.py"]))
      two_files_fs.

(** The run of [analyze] without a selection on the same workspace, the
    matcher reporting [b.py] before [a.py]. *)
Definition ordered_run : list event * outcome AnalysisResult * MemFs :=
  run (memfs ordered_world) (@analyze posix_like default_analyzer (Some (js "robot")) None)
      two_files_fs.

(** The first two lines [analyze] prints when there is nothing to
    analyze. *)
Definition scanning_banner : str := [55357; 56589] ++ js " Scanning workspace...".
Definition found_none : str := [55357; 56513] ++ js " Found 0 files to analyze".

(** Runs of [analyzeWithClaude] used as examples: the prompt file cannot
    be written; on Windows, without a shell; with a child that never
    ends. *)
Definition blocked_oracle_run : list event * outcome str * MemFs :=
  run (memfs quiet) (@analyzeWithClaude posix_like (js "prompt")) tmp_blocked_fs.
Definition windows_oracle_run : list event * outcome str * MemFs :=
  run (memfs windows_world) (@analyzeWithClaude posix_like (js "prompt")) empty_fs.
Definition hanging_oracle_run : list event * outcome str * MemFs :=
  run (memfs hanging_world) (@analyzeWithClaude posix_like (js "prompt")) empty_fs.

(** The three artifacts of [saveResults], in the order in which they are
    written: path and content. *)
Definition artifacts `{Platform} (results : AnalysisResult) (outputDir : str)
  : list (str * str) :=
  [ (path_join outputDir (js "state-machine.mmd"), mermaidDiagram results);
    (path_join outputDir (js "analysis.txt"), fullAnalysis results);
    (path_join outputDir (js "view-diagram.html"),
     viewer_head ++ mermaidDiagram results ++ viewer_tail) ].

(** Writing a list of files, one after the other, into a map of files. *)
Definition write_all (l : list (str * str)) (m : gmap str str) : gmap str str :=
  foldl (fun m a => <[a.1 := a.2]> m) m l.

(** Whether [fs.existsSync] finds the path in the in-memory file
    system. *)
Definition exists_in (fs : MemFs) (p : str) : bool :=
  bool_decide (is_Some (files fs !! p)) || bool_decide (p ∈ dirs fs).

(** Runs of [saveResults] used as examples. *)
Definition save_run : list event * outcome SavedPaths * MemFs :=
  run (memfs quiet) (@saveResults posix_like sample_result (js "/out")) empty_fs.
Definition blocked_save_run : list event * outcome SavedPaths * MemFs :=
  run (memfs quiet) (@saveResults posix_like sample_result (js "/out")) blocked_fs.

(** The number of cleanups the events of a child run. *)
Definition removals (events : list ChildEvent) : nat := length (List.filter ends events).

(** The promise as a way in which the invocation ends. *)
Definition promised (promise : option (result str)) : outcome str :=
  match promise with
  | Some (Ok value) => Returned value
  | Some (Thrown e) => Threw e
  | None => Hangs
  end.

(** The calls of [analyzeWithClaude] up to the write of the prompt, and
    the two that follow it. *)
Definition oracle_prelude (tmpFile prompt : str) : list op :=
  [ConsoleLog oracle_banner; OsTmpdir; DateNow; WriteFileSync tmpFile prompt].

Definition oracle_start (command : str) : list op := [ProcessPlatform; Spawn command].

(** A file system that refuses every removal, as for a file that another
    process holds open on Windows, or in a directory that lost its write
    permission after the file was written: [fs.unlinkSync] throws and the
    file stays. *)
Definition eperm : Error := mkError (js "EPERM: operation not permitted, unlink").

Definition sticky_respond (w : Outside) (o : op) (fs : MemFs) : resp o * MemFs :=
  match o as o return resp o * MemFs with
  | UnlinkSync file => (Thrown eperm, fs)
  | o' => mem_respond w o' fs
  end.

Definition stickyfs (w : Outside) : Env := {| St := MemFs; respond := sticky_respond w |}.

(** A system on which [spawn] throws: the environment of the process is
    too large to start another one. *)
Definition e2big : Error := mkError (js "spawn E2BIG").

Definition overloaded_world : Outside :=
  {| out_tmpdir := out_tmpdir quiet; out_now := out_now quiet;
     out_platform := out_platform quiet; out_glob := out_glob quiet;
     out_child := fun _ => Thrown e2big |}.

(** A system without the [claude] command. The command is run through a
    shell ([shell: true]): the shell starts, reports the missing command
    on its standard error and exits with code 127. *)
Definition claude_not_found : str := js "/bin/sh: 1: claude: not found" ++ [LF].

Definition missing_cli_world : Outside :=
  {| out_tmpdir := out_tmpdir quiet; out_now := out_now quiet;
     out_platform := out_platform quiet; out_glob := out_glob quiet;
     out_child := fun _ => Ok [StderrData claude_not_found; Close (Some 127%Z)] |}.

(** The hint of the failed-to-start message. *)
Definition install_hint : str := js "Make sure 'claude' is installed and in your PATH.".

(** The run of [analyze] on the selected file [a.py] of the workspace
    with two files, on a system whose shell cannot be started. *)
Definition unstartable_run : list event * outcome AnalysisResult * MemFs :=
  run (memfs unstartable_world) (@analyze posix_like default_analyzer None (Some [js "a.py"]))
      two_files_fs.

(** Runs of [analyzeWithClaude] on these systems. *)
Definition sticky_oracle_run : list event * outcome str * MemFs :=
  run (stickyfs blank_world) (@analyzeWithClaude posix_like (js "prompt")) empty_fs.
Definition overloaded_oracle_run : list event * outcome str * MemFs :=
  run (memfs overloaded_world) (@analyzeWithClaude posix_like (js "prompt")) empty_fs.
Definition missing_cli_run : list event * outcome str * MemFs :=
  run (memfs missing_cli_world) (@analyzeWithClaude posix_like (js "prompt")) empty_fs.
Definition unstartable_oracle_run : list event * outcome str * MemFs :=
  run (memfs unstartable_world) (@analyzeWithClaude posix_like (js "prompt")) empty_fs.

(* ===================================================================== *)
(** * Properties of the extractor *)
(* ===================================================================== *)

Section Extractor.

Lemma starts_with_split (pre s : str) :
  starts_with pre s = true -> s = pre ++ drop (length pre) s.
Proof.
  revert s. induction pre as [|a pre IH]; intros [|b s] Hs; simpl in *;
    try reflexivity; try discriminate.
  apply andb_true_iff in Hs as [Hab Hs]. apply N.eqb_eq in Hab. subst b.
  f_equal. apply IH, Hs.
Qed.

Lemma starts_with_app (pre s : str) : starts_with pre (pre ++ s) = true.
Proof.
  induction pre as [|a pre IH]; simpl; [reflexivity|].
  rewrite N.eqb_refl. exact IH.
Qed.

Lemma includes_here (needle s : str) :
  starts_with needle s = true -> includes needle s = true.
Proof. intros Hs. destruct s; simpl; rewrite Hs; reflexivity. Qed.

Lemma includes_split (needle s : str) :
  includes needle s = true <-> exists pre post, s = pre ++ needle ++ post.
Proof.
  split.
  - induction s as [|c s IH]; simpl; intros Hs.
    + rewrite orb_false_r in Hs. exists [], []. simpl.
      destruct needle; [reflexivity | discriminate].
    + apply orb_true_iff in Hs as [Hs|Hs].
      * exists [], (drop (length needle) (c :: s)). simpl.
        apply (starts_with_split needle (c :: s)), Hs.
      * destruct (IH Hs) as (pre & post & ->). exists (c :: pre), post. reflexivity.
  - intros (pre & post & ->). induction pre as [|c pre IH].
    + change ([] ++ needle ++ post) with (needle ++ post).
      apply includes_here, starts_with_app.
    + simpl. rewrite IH. apply orb_true_r.
Qed.

(** Where the lazy star stops. *)
Lemma block_end_cases (s : str) :
  block_end s = true <->
  s = [] \/ (exists t, s = LF :: LF :: t) \/ (exists t, s = LF :: fence ++ t).
Proof.
  unfold block_end. split.
  - intros Hs. apply orb_true_iff in Hs as [Hs|Hs];
      [apply orb_true_iff in Hs as [Hs|Hs]|].
    + right; left. apply starts_with_split in Hs. eexists. exact Hs.
    + right; right. apply starts_with_split in Hs. eexists. exact Hs.
    + left. destruct s; [reflexivity | discriminate].
  - intros [->|[[t ->]|[t ->]]].
    + reflexivity.
    + reflexivity.
    + reflexivity.
Qed.

(** The lazy star takes the shortest text after which the lookahead
    holds. *)
Lemma lazy_block_shortest (s : str) :
  exists tail_,
    s = lazy_block s ++ tail_ /\ block_end tail_ = true /\
    forall j, (j < length (lazy_block s))%nat -> block_end (drop j s) = false.
Proof.
  induction s as [|c s IH].
  - exists []. simpl. repeat split. intros j Hj. inversion Hj.
  - simpl lazy_block. destruct (block_end (c :: s)) eqn:Hend.
    + exists (c :: s). repeat split; [exact Hend|]. intros j Hj. inversion Hj.
    + destruct IH as (tl & Hs & Htl & Hmin). exists tl. repeat split.
      * simpl. f_equal. exact Hs.
      * exact Htl.
      * intros [|j] Hj; [exact Hend|]. simpl in *. apply Hmin. lia.
Qed.

(** The leftmost occurrence of the keyword is where the first regular
    expression matches; it needs nothing of what precedes the keyword. *)
Lemma diagram_re_leftmost (pre rest : str) :
  starts_with keyword rest = true ->
  (forall i, (i < length pre)%nat -> starts_with keyword (drop i (pre ++ rest)) = false) ->
  diagram_re (pre ++ rest) =
    Some (keyword ++ lazy_block (drop (length keyword) rest)).
Proof.
  intros Hrest. induction pre as [|c pre IH]; intros Hfirst.
  - simpl app. destruct rest as [|r rest]; [discriminate Hrest|].
    unfold diagram_re; fold diagram_re. unfold diagram_re_here.
    rewrite Hrest. reflexivity.
  - change ((c :: pre) ++ rest) with (c :: (pre ++ rest)).
    unfold diagram_re; fold diagram_re. unfold diagram_re_here.
    pose proof (Hfirst 0%nat ltac:(simpl; lia)) as H0.
    change (drop 0 ((c :: pre) ++ rest)) with (c :: (pre ++ rest)) in H0.
    rewrite H0.
    apply IH. intros i Hi. apply (Hfirst (S i)). simpl. lia.
Qed.

Lemma diagram_re_includes (s : str) :
  includes keyword s = true ->
  exists body, diagram_re s = Some (keyword ++ body).
Proof.
  induction s as [|c s IH]; intros Hs.
  - discriminate Hs.
  - unfold diagram_re; fold diagram_re. unfold diagram_re_here.
    destruct (starts_with keyword (c :: s)) eqn:Hk; [eexists; reflexivity|].
    unfold includes in Hs; fold includes in Hs. rewrite Hk in Hs.
    apply IH, Hs.
Qed.

Lemma diagram_re_none (s : str) :
  includes keyword s = false -> diagram_re s = None.
Proof.
  induction s as [|c s IH]; intros Hs; [reflexivity|].
  unfold includes in Hs; fold includes in Hs.
  apply orb_false_iff in Hs as [Hk Hs].
  unfold diagram_re; fold diagram_re. unfold diagram_re_here. rewrite Hk.
  apply IH, Hs.
Qed.

Lemma trim_start_snoc_nonspace (l : str) (c : N) :
  is_js_space c = false -> trim_start (l ++ [c]) <> [].
Proof.
  intros Hc. induction l as [|a l IH]; simpl.
  - rewrite Hc. discriminate.
  - destruct (is_js_space a); [exact IH | discriminate].
Qed.

Lemma trim_head_nonspace (c : N) (s : str) :
  is_js_space c = false -> trim (c :: s) <> [].
Proof.
  intros Hc. unfold trim. simpl trim_start. rewrite Hc. unfold trim_end.
  simpl rev. intros Hnil.
  apply (f_equal (@rev N)) in Hnil. rewrite rev_involutive in Hnil. simpl in Hnil.
  exact (trim_start_snoc_nonspace _ _ Hc Hnil).
Qed.

Lemma trim_keyword_nonempty (body : str) : trim (keyword ++ body) <> [].
Proof. apply trim_head_nonspace. reflexivity. Qed.

Lemma trim_start_nil (s : str) :
  trim_start s = [] <-> forallb is_js_space s = true.
Proof.
  induction s as [|c s IH]; simpl; [tauto|].
  destruct (is_js_space c); simpl; [exact IH|].
  split; discriminate.
Qed.

Lemma trim_start_head (s : str) :
  trim_start s = [] \/ exists c r, trim_start s = c :: r /\ is_js_space c = false.
Proof.
  induction s as [|c s IH]; simpl; [left; reflexivity|].
  destruct (is_js_space c) eqn:Hc; [exact IH|]. right. eauto.
Qed.

Lemma trim_nil (s : str) : trim s = [] <-> forallb is_js_space s = true.
Proof.
  rewrite <- trim_start_nil. unfold trim. split.
  - intros Hnil. destruct (trim_start_head s) as [E|(c & r & E & Hc)]; [exact E|].
    rewrite E in Hnil. exfalso.
    apply (trim_head_nonspace c r Hc). unfold trim. simpl. rewrite Hc. exact Hnil.
  - intros ->. reflexivity.
Qed.

End Extractor.

(** The last resort, returning the whole reply when it contains the
    keyword, is never reached: the first strategy matches every reply that
    contains the keyword. *)
Lemma last_resort_unreachable (response : str) :
  diagram_re response = None -> includes keyword response = false.
Proof.
  intros Hnone. destruct (includes keyword response) eqn:Hinc; [|reflexivity].
  destruct (diagram_re_includes response Hinc) as (body & Hsome).
  rewrite Hsome in Hnone. discriminate Hnone.
Qed.

(** Prose, then the diagram as a trailing block. *)
Example extract_trailing_block :
  extractMermaidDiagram
    (js "I found 3 states." ++ [LF; LF] ++ js "stateDiagram-v2" ++ [LF] ++
     js "  [*] --> Idle" ++ [LF] ++ js "  Idle --> Moving: go" ++ [LF])
  = Ok (js "stateDiagram-v2" ++ [LF] ++ js "  [*] --> Idle" ++ [LF] ++
        js "  Idle --> Moving: go").
Proof. vm_compute. reflexivity. Qed.

(** A fenced block without the keyword: the second strategy. *)
Example extract_fenced_block :
  extractMermaidDiagram
    (js "Here:" ++ [LF] ++ mermaid_open ++ js "graph TD" ++ [LF] ++ js "  A --> B" ++ [LF] ++ fence)
  = Ok (js "graph TD" ++ [LF] ++ js "  A --> B").
Proof. vm_compute. reflexivity. Qed.

(** Neither: the explicit failure; so for the empty reply. *)
Example extract_prose_fails :
  extractMermaidDiagram (js "I could not find any state machine.") = Thrown extract_failed /\
  extractMermaidDiagram [] = Thrown extract_failed.
Proof. split; vm_compute; reflexivity. Qed.

(** C2, as stated, fails: the first regular expression has no line anchor,
    so a keyword in the middle of a line of prose is matched (and returned)
    although the reply has no keyword at the start of any line. *)
Lemma keyword_mid_line_counterexample :
  keyword_at_line_start (js "The stateDiagram-v2 keyword") = false /\
  diagram_re (js "The stateDiagram-v2 keyword") = Some (js "stateDiagram-v2 keyword") /\
  extractMermaidDiagram (js "The stateDiagram-v2 keyword") = Ok (js "stateDiagram-v2 keyword").
Proof. repeat split; vm_compute; reflexivity. Qed.

(** C2, amended: the first strategy matches the leftmost occurrence of the
    keyword wherever it stands in the reply [pre ++ rest]; it captures the
    keyword and the shortest [body] after which a double line break, a line
    break followed by a fence, or the end of the text comes; and
    [extractMermaidDiagram] returns that capture trimmed, whatever the
    fenced-block strategy would find. *)
Theorem strategy1_leftmost_keyword (pre rest : str) :
  starts_with keyword rest = true ->
  (forall i, (i < length pre)%nat ->
     starts_with keyword (drop i (pre ++ rest)) = false) ->
  exists body tail_,
    rest = keyword ++ body ++ tail_ /\
    (tail_ = [] \/ (exists t, tail_ = LF :: LF :: t) \/ (exists t, tail_ = LF :: fence ++ t)) /\
    (forall j, (j < length body)%nat -> block_end (drop j (body ++ tail_)) = false) /\
    diagram_re (pre ++ rest) = Some (keyword ++ body) /\
    extractMermaidDiagram (pre ++ rest) = Ok (trim (keyword ++ body)).
Proof.
  intros Hrest Hfirst.
  pose proof (diagram_re_leftmost pre rest Hrest Hfirst) as Hre.
  destruct (lazy_block_shortest (drop (length keyword) rest)) as (tl & Hsplit & Hend & Hmin).
  exists (lazy_block (drop (length keyword) rest)), tl.
  split; [|split; [|split; [|split]]].
  - rewrite <- Hsplit. apply starts_with_split, Hrest.
  - apply block_end_cases, Hend.
  - rewrite <- Hsplit. exact Hmin.
  - exact Hre.
  - unfold extractMermaidDiagram. rewrite Hre. reflexivity.
Qed.

(** A reply with prose, a keyword block after a line break, and a fenced
    [mermaid] block with other content: the keyword block wins. *)
Lemma strategy1_leftmost_keyword_witness :
  exists body tail_,
    js "stateDiagram-v2 go" ++ [LF; LF] ++ mermaid_open ++ js "other" ++ [LF] ++ fence
      = keyword ++ body ++ tail_ /\
    (tail_ = [] \/ (exists t, tail_ = LF :: LF :: t) \/ (exists t, tail_ = LF :: fence ++ t)) /\
    (forall j, (j < length body)%nat -> block_end (drop j (body ++ tail_)) = false) /\
    diagram_re ((js "ok" ++ [LF]) ++
                js "stateDiagram-v2 go" ++ [LF; LF] ++ mermaid_open ++ js "other" ++ [LF] ++ fence)
      = Some (keyword ++ body) /\
    extractMermaidDiagram ((js "ok" ++ [LF]) ++
                js "stateDiagram-v2 go" ++ [LF; LF] ++ mermaid_open ++ js "other" ++ [LF] ++ fence)
      = Ok (trim (keyword ++ body)).
Proof.
  apply (strategy1_leftmost_keyword (js "ok" ++ [LF])
           (js "stateDiagram-v2 go" ++ [LF; LF] ++ mermaid_open ++ js "other" ++ [LF] ++ fence)).
  - reflexivity.
  - intros i Hi. do 3 (destruct i as [|i]; [reflexivity|]). simpl in Hi. lia.
Defined.

(** In that reply the fenced-block expression matches too, with other
    content. *)
Example fenced_block_also_matches :
  code_block_re ((js "ok" ++ [LF]) ++ js "stateDiagram-v2 go" ++ [LF; LF] ++
                 mermaid_open ++ js "other" ++ [LF] ++ fence)
  = Some (js "other" ++ [LF]).
Proof. vm_compute. reflexivity. Qed.

(** C5, as stated, fails: a reply without the keyword whose fenced
    [mermaid] block is empty is matched by the second strategy, and the
    empty string is returned as the diagram. *)
Lemma empty_fenced_block_counterexample :
  extractMermaidDiagram (mermaid_open ++ fence) = Ok [].
Proof. vm_compute. reflexivity. Qed.

(** C5, amended: [extractMermaidDiagram] either fails with the
    could-not-extract error, which happens exactly when the reply has
    neither the keyword nor a fenced [mermaid] block (so for the empty
    reply and for prose), or returns a text; the text is non-empty whenever
    the reply contains the keyword, and for a reply without the keyword it
    is the trimmed interior of the fenced block, empty exactly when that
    interior is white space only. *)
Theorem extract_fails_or_returns (response : str) :
  match extractMermaidDiagram response with
  | Thrown e =>
      e = extract_failed /\ includes keyword response = false /\
      code_block_re response = None
  | Ok d =>
      (includes keyword response = true /\ d <> []) \/
      (includes keyword response = false /\
       exists g, code_block_re response = Some g /\ d = trim g /\
                 (d = [] <-> forallb is_js_space g = true))
  end.
Proof.
  unfold extractMermaidDiagram.
  destruct (includes keyword response) eqn:Hinc.
  - destruct (diagram_re_includes response Hinc) as (body & ->).
    left. split; [reflexivity | apply trim_keyword_nonempty].
  - rewrite (diagram_re_none response Hinc).
    destruct (code_block_re response) as [g|] eqn:Hg.
    + right. split; [reflexivity|]. exists g. repeat split; apply trim_nil; assumption.
    + repeat split.
Qed.

(* ===================================================================== *)
(** * Running programs *)
(* ===================================================================== *)

Section Running.
Context (E : Env).

Lemma run_bind {A B} (p : prog A) (f : A -> prog B) (s : St E) :
  run E (bind p f) s =
    match run E p s with
    | (tr1, Returned a, s1) =>
        let '(tr2, r, s2) := run E (f a) s1 in (tr1 ++ tr2, r, s2)
    | (tr1, Threw e, s1) => (tr1, Threw e, s1)
    | (tr1, Hangs, s1) => (tr1, Hangs, s1)
    end.
Proof.
  revert s. induction p as [a|e| |o k IH]; intros s; simpl.
  - destruct (run E (f a) s) as [[tr r] s2]. reflexivity.
  - reflexivity.
  - reflexivity.
  - destruct (respond E o s) as [x s1]. rewrite IH.
    destruct (run E (k x) s1) as [[tr1 [a|e|]] s2]; try reflexivity.
    destruct (run E (f a) s2) as [[tr2 r] s3]. reflexivity.
Qed.

End Running.

(** One step of [run] at a call: name the answer and the next state. *)
Ltac step :=
  match goal with
  | |- context [respond ?E ?o ?s] =>
      let x := fresh "x" in
      let s1 := fresh "s" in
      destruct (respond E o s) as [x s1] eqn:?; simpl in *
  end.

Tactic Notation "step" "as" simple_intropattern(x) ident(s1) :=
  match goal with
  | |- context [respond ?E ?o ?s] =>
      destruct (respond E o s) as [x s1]; simpl in *
  end.

(* ===================================================================== *)
(** * ContentReader *)
(* ===================================================================== *)

Section Reader.
Context `{Platform} (E : Env) (this : CodeToFSMAnalyzer).

Lemma read_loop_spec (filePaths : list str) (fileContents : list FileRecord) (s : St E) :
  let '(tr, r, _) := run E (read_loop this filePaths fileContents) s in
  (read_attempts tr).*1 = filePaths /\
  r = Returned (fileContents ++ omap (record_of this) (read_attempts tr)) /\
  warnings tr = omap warning_of (read_attempts tr) /\
  Forall reads_or_warns tr.
Proof.
  revert fileContents s.
  induction filePaths as [|filePath rest IH]; intros fileContents s.
  - simpl. rewrite app_nil_r. repeat split. constructor.
  - simpl. step. destruct x as [content|error]; simpl.
    + specialize (IH (fileContents ++ [mkFile (path_relative (workspacePath this) filePath) content]) s0).
      destruct (run E _ s0) as [[tr r] s2].
      destruct IH as (Hpaths & Hr & Hwarn & Hall).
      split; [|split; [|split]].
      * cbn. f_equal. exact Hpaths.
      * rewrite Hr. cbn. rewrite <- app_assoc. reflexivity.
      * cbn. exact Hwarn.
      * constructor; [exact I | exact Hall].
    + step. destruct x. specialize (IH fileContents s1).
      destruct (run E _ s1) as [[tr r] s2].
      destruct IH as (Hpaths & Hr & Hwarn & Hall).
      split; [|split; [|split]].
      * cbn. f_equal. exact Hpaths.
      * rewrite Hr. reflexivity.
      * cbn. f_equal. exact Hwarn.
      * constructor; [exact I|]. constructor; [exact I | exact Hall].
Qed.

Lemma run_readFiles (filePaths : list str) (s : St E) :
  let '(tr, r, _) := run E (readFiles this filePaths) s in
  (read_attempts tr).*1 = filePaths /\
  r = Returned (omap (record_of this) (read_attempts tr)) /\
  warnings tr = omap warning_of (read_attempts tr) /\
  Forall reads_or_warns tr.
Proof. exact (read_loop_spec filePaths [] s). Qed.

Lemma records_count (attempts : list (str * result str)) :
  length (omap (record_of this) attempts) =
  (length attempts - length (List.filter unreadable attempts))%nat.
Proof.
  assert (length (omap (record_of this) attempts)
          + length (List.filter unreadable attempts) = length attempts)%nat as Hsum.
  { induction attempts as [|[file [content|error]] rest IH]; cbn in *; lia. }
  lia.
Qed.

(** C8: [readFiles] always returns. Every requested path is read once, in
    the order given; the result holds one record per path whose read
    succeeded, in that order, with the path made relative to the
    workspace root, so N - K records for N paths of which K could not be
    read; each failed read prints one warning and nothing else happens. *)
Theorem readFiles_skips_unreadable (filePaths : list str) (s : St E) :
  let '(tr, r, _) := run E (readFiles this filePaths) s in
  let attempts := read_attempts tr in
  attempts.*1 = filePaths /\
  r = Returned (omap (record_of this) attempts) /\
  length (omap (record_of this) attempts) =
    (length filePaths - length (List.filter unreadable attempts))%nat /\
  warnings tr = omap warning_of attempts /\
  Forall reads_or_warns tr.
Proof.
  pose proof (run_readFiles filePaths s) as Hspec.
  destruct (run E _ s) as [[tr r] s']. cbn zeta.
  destruct Hspec as (Hpaths & Hr & Hwarn & Hall).
  split; [exact Hpaths|]. split; [exact Hr|]. split; [|split; assumption].
  rewrite records_count, <- Hpaths, length_fmap. reflexivity.
Qed.

End Reader.

(** Three paths, the second unreadable: two records, one warning. *)
Example read_three :
  (run (memfs quiet)
       (@readFiles posix_like default_analyzer [js "/w/a.py"; js "/w/gone.py"; js "/w/b.py"])
       two_files_fs).1
  = ([Ev (ReadFileSync (js "/w/a.py")) (Ok (js "state = 'IDLE'"));
      Ev (ReadFileSync (js "/w/gone.py")) (Thrown enoent);
      Ev (ConsoleWarn (js "Warning: Could not read /w/gone.py: ENOENT: no such file or directory")) tt;
      Ev (ReadFileSync (js "/w/b.py")) (Ok (js "state = 'RUN'"))],
     Returned [ {| path := js "a.py"; content := js "state = 'IDLE'" |};
                {| path := js "b.py"; content := js "state = 'RUN'" |} ]).
Proof. vm_compute. reflexivity. Qed.

(* ===================================================================== *)
(** * WorkspaceScanner *)
(* ===================================================================== *)

Section Scanner.
Context (E : Env) (this : CodeToFSMAnalyzer).

Lemma scan_patterns_spec (patterns files : list str) (s : St E) :
  let '(tr, r, _) := run E (scan_patterns this patterns files) s in
  stat_attempts tr = [] /\
  match r with
  | Returned all =>
      (glob_attempts tr).*1 = asked this <$> patterns /\
      all = files ++ concat (matched <$> glob_attempts tr)
  | Threw e => exists before a, glob_attempts tr = before ++ [(a, Thrown e)]
  | Hangs => False
  end.
Proof.
  revert files s. induction patterns as [|pattern rest IH]; intros files s.
  - simpl. rewrite app_nil_r. repeat split.
  - simpl. step. destruct x as [matches|e]; simpl.
    + specialize (IH (files ++ matches) s0).
      destruct (run E _ s0) as [[tr [all|e|]] s2]; destruct IH as [Hstat IH];
        (split; [exact Hstat|]); try exact IH.
      * destruct IH as [Hasked Hall]. split.
        -- cbn. f_equal. exact Hasked.
        -- rewrite Hall. cbn. rewrite <- app_assoc. reflexivity.
      * destruct IH as (before & a & Hgl).
        eexists (_ :: before), a. cbn. f_equal. exact Hgl.
    + split; [reflexivity|]. eexists [], _. reflexivity.
Qed.

Lemma scan_sizes_spec (files validFiles : list str) (s : St E) :
  let '(tr, r, _) := run E (scan_sizes this files validFiles) s in
  glob_attempts tr = [] /\
  match r with
  | Returned valid =>
      (stat_attempts tr).*1 = files /\
      valid = validFiles ++ omap (kept this) (stat_attempts tr)
  | Threw e =>
      exists before file,
        stat_attempts tr = before ++ [(file, Thrown e)] /\
        (before.*1 ++ [file]) `prefix_of` files
  | Hangs => False
  end.
Proof.
  revert validFiles s. induction files as [|file rest IH]; intros validFiles s.
  - simpl. rewrite app_nil_r. repeat split.
  - simpl. step. destruct x as [stats|e]; simpl.
    + destruct (size stats <=? maxFileSize (options this)) eqn:Hsize.
      * specialize (IH (validFiles ++ [file]) s0).
        destruct (run E _ s0) as [[tr [valid|e|]] s2]; destruct IH as [Hglob IH];
          (split; [exact Hglob|]); try exact IH.
        -- destruct IH as [Hfiles Hvalid]. split; [cbn; f_equal; exact Hfiles|].
           rewrite Hvalid. cbn. unfold kept at 2. cbn. rewrite Hsize.
           rewrite <- app_assoc. reflexivity.
        -- destruct IH as (before & f & Hst & Hpre).
           exists ((file, Ok stats) :: before), f. split; [cbn; f_equal; exact Hst|].
           cbn. apply prefix_cons, Hpre.
      * specialize (IH validFiles s0).
        destruct (run E _ s0) as [[tr [valid|e|]] s2]; destruct IH as [Hglob IH];
          (split; [exact Hglob|]); try exact IH.
        -- destruct IH as [Hfiles Hvalid]. split; [cbn; f_equal; exact Hfiles|].
           rewrite Hvalid. cbn. unfold kept at 2. cbn. rewrite Hsize. reflexivity.
        -- destruct IH as (before & f & Hst & Hpre).
           exists ((file, Ok stats) :: before), f. split; [cbn; f_equal; exact Hst|].
           cbn. apply prefix_cons, Hpre.
    + split; [reflexivity|]. exists [], file. split; [reflexivity|].
      cbn. apply prefix_cons, prefix_nil.
Qed.

Lemma kept_sublist (attempts : list (str * result Stats)) :
  omap (kept this) attempts `sublist_of` attempts.*1.
Proof.
  induction attempts as [|[file r] rest IH]; cbn; [constructor|].
  unfold kept at 1. cbn. destruct r as [stats|e].
  - destruct (size stats <=? _); [apply sublist_skip | apply sublist_cons]; exact IH.
  - apply sublist_cons, IH.
Qed.

Lemma scanWorkspace_spec (s : St E) :
  let '(tr, r, _) := run E (scanWorkspace this) s in
  match r with
  | Returned validFiles =>
      (glob_attempts tr).*1 = asked this <$> filePatterns (options this) /\
      (stat_attempts tr).*1 = concat (matched <$> glob_attempts tr) /\
      validFiles = omap (kept this) (stat_attempts tr)
  | Threw e =>
      (exists a, last (glob_attempts tr) = Some (a, Thrown e)) \/
      (exists file, last (stat_attempts tr) = Some (file, Thrown e))
  | Hangs => False
  end.
Proof.
  unfold scanWorkspace. rewrite run_bind.
  pose proof (scan_patterns_spec (filePatterns (options this)) [] s) as H1.
  destruct (run E (scan_patterns _ _ _) s) as [[tr1 [all|e|]] s1];
    destruct H1 as [Hstat1 H1]; [| |contradiction].
  - destruct H1 as [Hasked Hall]. simpl in Hall.
    pose proof (scan_sizes_spec all [] s1) as H2.
    destruct (run E (scan_sizes _ _ _) s1) as [[tr2 [valid|e|]] s2];
      destruct H2 as [Hglob2 H2]; [| |contradiction].
    + destruct H2 as [Hfiles Hvalid]. simpl in Hvalid.
      unfold glob_attempts, stat_attempts in *. rewrite !omap_app.
      rewrite Hglob2, Hstat1, app_nil_r. simpl. repeat split; congruence.
    + right. destruct H2 as (before & file & Hst & _). exists file.
      unfold stat_attempts in *. rewrite omap_app, Hstat1, Hst. simpl.
      apply last_snoc.
  - left. destruct H1 as (before & a & Hgl). exists a. rewrite Hgl. apply last_snoc.
Qed.

(** C7, amended: a scan that returns has asked the matcher once per
    include pattern, in order, each time with the workspace root and the
    exclude patterns; has looked up the status of every match of every
    pattern, in order, a path as often as it was matched; and returns the
    looked-up paths whose size is at most the ceiling, in that order and
    as often as they were matched, whether files or directories. Nothing
    is removed besides oversized paths: the result is free of duplicates
    when the matches of all patterns together are. *)
Theorem scanWorkspace_concatenates (s : St E) (tr : list event)
    (validFiles : list str) (s' : St E) :
  run E (scanWorkspace this) s = (tr, Returned validFiles, s') ->
  (glob_attempts tr).*1 = asked this <$> filePatterns (options this) /\
  (stat_attempts tr).*1 = concat (matched <$> glob_attempts tr) /\
  validFiles = omap (kept this) (stat_attempts tr) /\
  (NoDup (concat (matched <$> glob_attempts tr)) -> NoDup validFiles).
Proof.
  intros Hrun. pose proof (scanWorkspace_spec s) as Hspec. rewrite Hrun in Hspec.
  destruct Hspec as (Hasked & Hstat & Hvalid). repeat split; try assumption.
  intros Hnodup. rewrite Hvalid. rewrite <- Hstat in Hnodup.
  eapply sublist_NoDup; [exact Hnodup | apply kept_sublist].
Qed.

End Scanner.

Lemma scanWorkspace_concatenates_witness :
  (glob_attempts (run (memfs overlap_world) (scanWorkspace overlap_analyzer) overlap_fs).1.1).*1
    = asked overlap_analyzer <$> filePatterns (options overlap_analyzer) /\
  (stat_attempts (run (memfs overlap_world) (scanWorkspace overlap_analyzer) overlap_fs).1.1).*1
    = concat (matched <$>
        glob_attempts (run (memfs overlap_world) (scanWorkspace overlap_analyzer) overlap_fs).1.1) /\
  [js "/w/a.js"; js "/w/lib.js"; js "/w/a.js"]
    = omap (kept overlap_analyzer)
        (stat_attempts (run (memfs overlap_world) (scanWorkspace overlap_analyzer) overlap_fs).1.1) /\
  (NoDup (concat (matched <$>
        glob_attempts (run (memfs overlap_world) (scanWorkspace overlap_analyzer) overlap_fs).1.1))
   -> NoDup [js "/w/a.js"; js "/w/lib.js"; js "/w/a.js"]).
Proof.
  apply (scanWorkspace_concatenates (memfs overlap_world) overlap_analyzer overlap_fs
           _ _ (run (memfs overlap_world) (scanWorkspace overlap_analyzer) overlap_fs).2).
  vm_compute. reflexivity.
Defined.

(** C7, as stated, fails: with the include patterns [**/*.js] and
    [**/a.*] the file [a.js] is matched twice and returned twice, and the
    directory [lib.js], which the first pattern matches, is returned as
    well. *)
Lemma scan_duplicates_counterexample :
  (run (memfs overlap_world) (scanWorkspace overlap_analyzer) overlap_fs).1.2
    = Returned [js "/w/a.js"; js "/w/lib.js"; js "/w/a.js"] /\
  ~ NoDup [js "/w/a.js"; js "/w/lib.js"; js "/w/a.js"] /\
  js "/w/lib.js" ∈ dirs overlap_fs.
Proof.
  split; [vm_compute; reflexivity|]. split.
  - intros Hnd. apply NoDup_cons in Hnd as [Hnotin _]. apply Hnotin.
    repeat constructor.
  - unfold overlap_fs. simpl. set_solver.
Qed.

(** C6: the code does not do what the claim says. [gone.js] is listed by
    the matcher but has no status; [fs.statSync] throws, nothing catches
    it, and the whole scan fails with that error: [a.js], the remaining
    candidate, is never looked at. *)
Theorem scan_aborts_on_stat_failure :
  (run (memfs dangling_world) (scanWorkspace default_analyzer) dangling_fs).1.2
    = Threw enoent /\
  stat_attempts (run (memfs dangling_world) (scanWorkspace default_analyzer) dangling_fs).1.1
    = [(js "/w/gone.js", Thrown enoent)].
Proof. split; vm_compute; reflexivity. Qed.

(* ===================================================================== *)
(** * OracleInvoker *)
(* ===================================================================== *)

Section Oracle.
Context `{Platform} (E : Env).

(** A ['close'] or ['error'] event settles a pending promise; data does
    not. *)
Lemma settled_hangs (events : list ChildEvent) (output errorOutput : str) :
  settled events output errorOutput = Hangs <-> removals events = 0%nat.
Proof.
  revert output errorOutput. unfold removals.
  induction events as [|[data|data|code|err] rest IH]; intros output errorOutput; simpl.
  - split; reflexivity.
  - apply IH.
  - apply IH.
  - destruct (code_nonzero code); split; discriminate.
  - split; discriminate.
Qed.

(** The listeners over the events of a child: the promise is settled by
    the first ['close'] or ['error'] unless it was settled before, and
    the calls made are one removal of the temporary file for each
    ['close'] and each ['error']. *)
Lemma run_listen (tmpFile : str) (events : list ChildEvent) (output errorOutput : str)
    (promise : option (result str)) (s : St E) :
  let '(tr, r, _) := run E (listen tmpFile events output errorOutput promise) s in
  r = match promise with
      | Some _ => promised promise
      | None => settled events output errorOutput
      end /\
  exists answers,
    length answers = removals events /\ tr = Ev (UnlinkSync tmpFile) <$> answers.
Proof.
  revert output errorOutput promise s. unfold removals.
  induction events as [|[data|data|code|err] rest IH]; intros output errorOutput promise s.
  - simpl. destruct promise as [[value|e]|]; simpl;
      (split; [reflexivity | exists []; split; reflexivity]).
  - simpl. apply IH.
  - simpl. apply IH.
  - simpl. unfold unlinkSync. simpl.
    destruct (respond E (UnlinkSync tmpFile) s) as [x s1].
    set (p := settle promise _).
    assert (promised p = match promise with
                         | Some _ => promised promise
                         | None => if code_nonzero code
                                   then Threw (exit_error code errorOutput)
                                   else Returned (trim output)
                         end) as Hp.
    { subst p. destruct promise as [[value|e]|]; simpl; try reflexivity.
      destruct (code_nonzero code); reflexivity. }
    assert (exists first, p = Some first) as [first Hfirst].
    { subst p. destruct promise as [first|]; simpl; eauto. }
    specialize (IH output errorOutput p s1).
    destruct x as [[]|e]; simpl;
      destruct (run E (listen tmpFile rest output errorOutput p) s1) as [[tr r] s2];
      destruct IH as [Hr (answers & Hlen & ->)]; rewrite Hfirst, <- Hfirst, Hp in Hr;
      (split; [exact Hr|]).
    + exists (Ok tt :: answers). split; [simpl; f_equal; exact Hlen | reflexivity].
    + exists (Thrown e :: answers). split; [simpl; f_equal; exact Hlen | reflexivity].
  - simpl. unfold unlinkSync. simpl.
    destruct (respond E (UnlinkSync tmpFile) s) as [x s1].
    set (p := settle promise _).
    assert (promised p = match promise with
                         | Some _ => promised promise
                         | None => Threw (start_error err)
                         end) as Hp.
    { subst p. destruct promise as [[value|e]|]; reflexivity. }
    assert (exists first, p = Some first) as [first Hfirst].
    { subst p. destruct promise as [first|]; simpl; eauto. }
    specialize (IH output errorOutput p s1).
    destruct x as [[]|e]; simpl;
      destruct (run E (listen tmpFile rest output errorOutput p) s1) as [[tr r] s2];
      destruct IH as [Hr (answers & Hlen & ->)]; rewrite Hfirst, <- Hfirst, Hp in Hr;
      (split; [exact Hr|]).
    + exists (Ok tt :: answers). split; [simpl; f_equal; exact Hlen | reflexivity].
    + exists (Thrown e :: answers). split; [simpl; f_equal; exact Hlen | reflexivity].
Qed.

(** What a trace of removals shows. *)
Lemma unlinks_views (tmpFile : str) (answers : list (result unit)) :
  let tr := Ev (UnlinkSync tmpFile) <$> answers in
  read_attempts tr = [] /\ glob_attempts tr = [] /\ stat_attempts tr = [] /\
  write_attempts tr = [] /\ spawn_attempts tr = [] /\ spawned tr = [] /\
  unlink_attempts tr = (fun a => (tmpFile, a)) <$> answers /\
  calls tr = replicate (length answers) (UnlinkSync tmpFile).
Proof.
  induction answers as [|a answers IH]; [repeat split|].
  destruct IH as (Hrd & Hgl & Hst & Hwr & Hat & Hsp & Hun & Hca).
  repeat split; cbn; try f_equal; assumption.
Qed.

(** Data events only feed the buffers. *)
Lemma settled_after_data (datas rest : list ChildEvent) (output errorOutput : str) :
  forallb is_data datas = true ->
  settled (datas ++ rest) output errorOutput =
  settled rest (output ++ concat (stdout_of <$> datas))
               (errorOutput ++ concat (stderr_of <$> datas)).
Proof.
  revert output errorOutput.
  induction datas as [|[data|data|code|err] datas IH]; intros output errorOutput Hdata;
    try discriminate Hdata.
  - simpl. rewrite !app_nil_r. reflexivity.
  - simpl in *. rewrite (IH _ _ Hdata). rewrite <- app_assoc. reflexivity.
  - simpl in *. rewrite (IH _ _ Hdata). rewrite <- app_assoc. reflexivity.
Qed.

(** The shape of every run of [analyzeWithClaude]. The prompt is written
    to the temporary file; if that fails, the error is thrown and nothing
    is spawned. Otherwise [spawn] is called once, on the redirected file.
    If it throws, that error is the rejection and no removal is attempted.
    If it starts a child, the outcome is the promise as the child's events
    settle it, and the calls that follow are the removals of the
    temporary file, one for each ['close'] and each ['error']. *)
Lemma run_analyzeWithClaude (prompt : str) (s : St E) :
  let '(tr, r, _) := run E (analyzeWithClaude prompt) s in
  exists tmpdir now written,
    let tmpFile := path_join tmpdir (tmp_name now) in
    write_attempts tr = [(tmpFile, prompt, written)] /\
    read_attempts tr = [] /\ glob_attempts tr = [] /\ stat_attempts tr = [] /\
    match written with
    | Thrown e =>
        r = Threw e /\ spawn_attempts tr = [] /\ spawned tr = [] /\
        unlink_attempts tr = [] /\
        calls tr = oracle_prelude tmpFile prompt
    | Ok _ =>
        exists platform child,
          let command := shell_command (str_eqb platform (js "win32")) tmpFile in
          spawn_attempts tr = [(command, child)] /\
          match child with
          | Thrown e =>
              r = Threw e /\ spawned tr = [] /\ unlink_attempts tr = [] /\
              calls tr = oracle_prelude tmpFile prompt ++ oracle_start command
          | Ok events =>
              spawned tr = [(command, events)] /\
              r = settled events [] [] /\
              exists answers,
                length answers = removals events /\
                unlink_attempts tr = (fun a => (tmpFile, a)) <$> answers /\
                calls tr = oracle_prelude tmpFile prompt ++ oracle_start command ++
                           replicate (removals events) (UnlinkSync tmpFile)
          end
    end.
Proof.
  unfold analyzeWithClaude. simpl. unfold writeFileSync, spawn. simpl.
  step as [] s1. step as tmpdir s2. step as now s3. step as written s4.
  destruct written as [[]|e]; simpl;
    [|exists tmpdir, now, (Thrown e); repeat split].
  step as platform s5. step as child s6.
  destruct child as [events|e]; simpl.
  - pose proof (run_listen (path_join tmpdir (tmp_name now)) events [] [] None s6) as Hl.
    destruct (run E (listen _ _ _ _ _) s6) as [[tr r] s'].
    destruct Hl as (Hr & answers & Hlen & ->).
    exists tmpdir, now, (Ok tt).
    destruct (unlinks_views (path_join tmpdir (tmp_name now)) answers)
      as (Hrd & Hgl & Hst & Hwr & Hat & Hsp & Hun & Hca).
    split; [cbn; f_equal; exact Hwr|].
    split; [exact Hrd|]. split; [exact Hgl|]. split; [exact Hst|].
    exists platform, (Ok events).
    split; [cbn; f_equal; exact Hat|].
    split; [cbn; f_equal; exact Hsp|].
    split; [exact Hr|].
    exists answers. split; [exact Hlen|]. split; [exact Hun|].
    rewrite <- Hlen. cbn. do 6 f_equal. exact Hca.
  - exists tmpdir, now, (Ok tt). repeat split. exists platform, (Thrown e). repeat split.
Qed.

End Oracle.

Section OracleClaims.
Context `{Platform}.

(** Once a child is started, the first event that is not data decides
    the outcome. An ['error'] event rejects with the failed-to-start
    message, which ends with the hint to install [claude] and put it on
    the [PATH]. A ['close'] event with a code other than 0 rejects with
    the exited-with-code message, which ends with everything read from
    the standard error. A ['close'] event with code 0 fulfils with the
    trimmed standard output, empty or not. *)
Lemma started_child_classified (E : Env) (prompt : str) (s : St E)
    (tr : list event) (r : outcome str) (s' : St E)
    (command : str) (datas : list ChildEvent) (ev : ChildEvent) (rest : list ChildEvent) :
  run E (analyzeWithClaude prompt) s = (tr, r, s') ->
  spawned tr = [(command, datas ++ ev :: rest)] ->
  forallb is_data datas = true ->
  match ev with
  | SpawnError err =>
      r = Threw (mkError (js "Failed to start Claude CLI: " ++ message err ++
                          js ". Make sure 'claude' is installed and in your PATH."))
  | Close (Some Z0) => r = Returned (trim (concat (stdout_of <$> datas)))
  | Close code =>
      r = Threw (mkError (js "Claude CLI exited with code " ++ show_code code ++
                          js ": " ++ concat (stderr_of <$> datas)))
  | StdoutData _ | StderrData _ => True
  end.
Proof.
  intros Hrun Hsp Hdata.
  pose proof (run_analyzeWithClaude E prompt s) as Hshape. rewrite Hrun in Hshape.
  destruct Hshape as (tmpdir & now & written & _ & _ & _ & _ & Hshape).
  destruct written as [[]|e].
  - destruct Hshape as (platform & [events|e] & _ & Hshape).
    + destruct Hshape as (Hsp' & Hr & _).
      rewrite Hsp in Hsp'. injection Hsp' as _ <-.
      rewrite (settled_after_data datas (ev :: rest) [] [] Hdata) in Hr. simpl in Hr.
      destruct ev as [data|data|[[|p|p]|]|err]; try exact I; exact Hr.
    + destruct Hshape as (_ & Hnone & _). rewrite Hnone in Hsp. discriminate Hsp.
  - destruct Hshape as (_ & _ & Hnone & _). rewrite Hnone in Hsp. discriminate Hsp.
Qed.

(** C3, as amended: in every run in which the child was started and the
    invocation ends, by returning (exit code 0) or by throwing (another
    exit code, or an ['error'] event of a child that could not be
    started), the removal of the temporary prompt file was attempted:
    [fs.unlinkSync] is called on the file the prompt was written to, once
    for each ['close'] and each ['error'] event and so at least once, and
    these are the only calls after the spawn. The answers to the removals
    have no part in the outcome: a removal that fails is passed over. *)
Theorem temp_file_removal_attempted (E : Env) (prompt : str) (s : St E)
    (tr : list event) (r : outcome str) (s' : St E)
    (command : str) (events : list ChildEvent) :
  run E (analyzeWithClaude prompt) s = (tr, r, s') ->
  spawned tr = [(command, events)] ->
  r <> Hangs ->
  exists tmpFile answer answers,
    write_attempts tr = [(tmpFile, prompt, Ok tt)] /\
    unlink_attempts tr = (tmpFile, answer) :: ((fun a => (tmpFile, a)) <$> answers) /\
    S (length answers) = removals events /\
    calls tr = oracle_prelude tmpFile prompt ++ oracle_start command ++
               replicate (removals events) (UnlinkSync tmpFile) /\
    r = settled events [] [].
Proof.
  intros Hrun Hsp Hends.
  pose proof (run_analyzeWithClaude E prompt s) as Hshape. rewrite Hrun in Hshape.
  destruct Hshape as (tmpdir & now & written & Hwr & _ & _ & _ & Hshape).
  destruct written as [[]|e].
  - destruct Hshape as (platform & [events'|e] & _ & Hshape).
    + destruct Hshape as (Hsp' & Hr & answers & Hlen & Hun & Hca).
      rewrite Hsp in Hsp'. injection Hsp' as -> <-.
      destruct answers as [|answer answers].
      { exfalso. apply Hends. rewrite Hr. apply settled_hangs. symmetry. exact Hlen. }
      exists (path_join tmpdir (tmp_name now)), answer, answers.
      split; [exact Hwr|]. split; [exact Hun|]. split; [exact Hlen|].
      split; [exact Hca | exact Hr].
    + destruct Hshape as (_ & Hnone & _). rewrite Hnone in Hsp. discriminate Hsp.
  - destruct Hshape as (_ & _ & Hnone & _). rewrite Hnone in Hsp. discriminate Hsp.
Qed.

End OracleClaims.

Lemma temp_file_removal_attempted_witness :
  exists tmpFile answer answers,
    write_attempts unstartable_oracle_run.1.1 = [(tmpFile, js "prompt", Ok tt)] /\
    unlink_attempts unstartable_oracle_run.1.1
      = (tmpFile, answer) :: ((fun a => (tmpFile, a)) <$> answers) /\
    S (length answers)
      = removals [SpawnError (mkError (js "spawn /bin/sh ENOENT")); Close (Some (-2)%Z)] /\
    calls unstartable_oracle_run.1.1
      = oracle_prelude tmpFile (js "prompt") ++
        oracle_start (shell_command false (js "/tmp/claude-prompt-1700000000000.txt")) ++
        replicate (removals [SpawnError (mkError (js "spawn /bin/sh ENOENT"));
                             Close (Some (-2)%Z)])
                  (UnlinkSync tmpFile) /\
    unstartable_oracle_run.1.2
      = settled [SpawnError (mkError (js "spawn /bin/sh ENOENT")); Close (Some (-2)%Z)] [] [].
Proof.
  apply (@temp_file_removal_attempted posix_like (memfs unstartable_world) (js "prompt")
           empty_fs unstartable_oracle_run.1.1 unstartable_oracle_run.1.2
           unstartable_oracle_run.2
           (shell_command false (js "/tmp/claude-prompt-1700000000000.txt"))
           [SpawnError (mkError (js "spawn /bin/sh ENOENT")); Close (Some (-2)%Z)]).
  - vm_compute. reflexivity.
  - vm_compute. reflexivity.
  - vm_compute. discriminate.
Defined.

(** C3: the claim fails where the removal itself fails. The child exits
    with code 0 and the invocation returns; the one removal attempted is
    refused, the refusal is passed over, and the temporary file is still
    there with the prompt in it. *)
Lemma cleanup_failure_counterexample :
  sticky_oracle_run.1.2 = Returned [] /\
  unlink_attempts sticky_oracle_run.1.1
    = [(js "/tmp/claude-prompt-1700000000000.txt", Thrown eperm)] /\
  files sticky_oracle_run.2 !! js "/tmp/claude-prompt-1700000000000.txt"
    = Some (js "prompt").
Proof. repeat split; vm_compute; reflexivity. Qed.

(** C4: the code does not do what the claim says when the [claude]
    command is missing. The command line is handed to a shell, the shell
    does start, and the missing command comes back as exit code 127: the
    invocation fails with the exited-with-code message, which holds the
    complaint of the shell and no hint. A [spawn] that throws is not
    reported as a failure to start either: its error is the rejection,
    as it is. *)
Theorem missing_cli_reported_as_exit :
  missing_cli_run.1.2 = Threw (exit_error (Some 127%Z) claude_not_found) /\
  message (exit_error (Some 127%Z) claude_not_found)
    = js "Claude CLI exited with code 127: /bin/sh: 1: claude: not found" ++ [LF] /\
  includes install_hint (message (exit_error (Some 127%Z) claude_not_found)) = false /\
  overloaded_oracle_run.1.2 = Threw e2big /\
  includes install_hint (message e2big) = false.
Proof. repeat split; vm_compute; reflexivity. Qed.

(** The ways out, run on the in-memory file system: the blank reply is
    returned as the empty string, the others throw. The temporary file is
    gone each time but the last: after a [spawn] that throws it is still
    there. *)
Example exit_zero :
  (run (memfs blank_world) (@analyzeWithClaude posix_like (js "prompt")) empty_fs).1.2
    = Returned [] /\
  files (run (memfs blank_world) (@analyzeWithClaude posix_like (js "prompt")) empty_fs).2
    = ∅.
Proof. split; vm_compute; reflexivity. Qed.

Example exit_nonzero :
  (run (memfs failing_world) (@analyzeWithClaude posix_like (js "prompt")) empty_fs).1.2
    = Threw (mkError (js "Claude CLI exited with code 1: not logged in")) /\
  files (run (memfs failing_world) (@analyzeWithClaude posix_like (js "prompt")) empty_fs).2
    = ∅.
Proof. split; vm_compute; reflexivity. Qed.

Example exit_unstartable :
  unstartable_oracle_run.1.2
    = Threw (mkError (js "Failed to start Claude CLI: spawn /bin/sh ENOENT. Make sure 'claude' is installed and in your PATH.")) /\
  unlink_attempts unstartable_oracle_run.1.1
    = [(js "/tmp/claude-prompt-1700000000000.txt", Ok tt);
       (js "/tmp/claude-prompt-1700000000000.txt", Thrown enoent)] /\
  files unstartable_oracle_run.2 = ∅.
Proof. repeat split; vm_compute; reflexivity. Qed.

Example exit_spawn_throws :
  overloaded_oracle_run.1.2 = Threw e2big /\
  unlink_attempts overloaded_oracle_run.1.1 = [] /\
  files overloaded_oracle_run.2 !! js "/tmp/claude-prompt-1700000000000.txt"
    = Some (js "prompt").
Proof. repeat split; vm_compute; reflexivity. Qed.

(* ===================================================================== *)
(** * ArtifactWriter *)
(* ===================================================================== *)

Section Writer.
Context `{Platform} (E : Env).

(** A run that ended at a failing call. *)
Ltac failed_last :=
  match goal with
  | |- exists before e, ?tr = before ++ [e] /\ _ =>
      let close := (eexists; split; [reflexivity | split; reflexivity]) in
      first [ solve [exists []; close] | solve [eexists [_]; close]
            | solve [eexists [_; _]; close] | solve [eexists [_; _; _]; close]
            | solve [eexists [_; _; _; _]; close]
            | solve [eexists [_; _; _; _; _]; close]
            | solve [eexists [_; _; _; _; _; _]; close]
            | solve [eexists [_; _; _; _; _; _; _]; close] ]
  end.

Ltac save_case found :=
  exists found; split; [reflexivity|]; split;
    [eexists; reflexivity | first [failed_last | repeat split]].

(** C9: [saveResults] first asks whether the output directory exists and
    creates it, recursively, when it does not; then it writes the diagram
    file, the report and the viewer document, in that order (each
    followed by its log line) and makes no other call. A run that throws
    ended at the one call that failed, with that call's error: nothing is
    attempted after a failed write. A run that returns made every call
    of the script, none failed, and it returns the three paths. *)
Theorem saveResults_order_and_failure (results : AnalysisResult) (outputDir : str)
    (s : St E) :
  let '(tr, r, _) := run E (saveResults results outputDir) s in
  exists found,
    head tr = Some (Ev (ExistsSync outputDir) found) /\
    calls tr `prefix_of` save_script found results outputDir /\
    match r with
    | Returned saved =>
        failures tr = [] /\
        calls tr = save_script found results outputDir /\
        saved = {| mermaidPath := path_join outputDir (js "state-machine.mmd");
                   analysisPath := path_join outputDir (js "analysis.txt");
                   htmlPath := Some (path_join outputDir (js "view-diagram.html")) |}
    | Threw err =>
        exists before e, tr = before ++ [e] /\ thrown e = Some err /\ failures before = []
    | Hangs => False
    end.
Proof.
  unfold saveResults, ensure_dir, generateHTMLViewer, writeFileSync, mkdirSync_recursive.
  simpl. step as found s1. destruct found; simpl.
  - step as [[]|e1] s2; [|save_case true].
    step as [] s3.
    step as [[]|e2] s4; [|save_case true].
    step as [] s5.
    step as [[]|e3] s6; [|save_case true].
    step as [] s7. save_case true.
  - step as [[]|e0] s2; [|save_case false].
    step as [[]|e1] s3; [|save_case false].
    step as [] s4.
    step as [[]|e2] s5; [|save_case false].
    step as [] s6.
    step as [[]|e3] s7; [|save_case false].
    step as [] s8. save_case false.
Qed.

(** The earlier version does the same with two artifacts. *)
Lemma saveResults_earlier_order_and_failure (results : AnalysisResult) (outputDir : str)
    (s : St E) :
  let '(tr, r, _) := run E (saveResults_earlier results outputDir) s in
  exists found,
    head tr = Some (Ev (ExistsSync outputDir) found) /\
    calls tr `prefix_of` save_script_earlier found results outputDir /\
    match r with
    | Returned saved =>
        failures tr = [] /\
        calls tr = save_script_earlier found results outputDir /\
        saved = {| mermaidPath := path_join outputDir (js "state-machine.mmd");
                   analysisPath := path_join outputDir (js "analysis.txt");
                   htmlPath := None |}
    | Threw err =>
        exists before e, tr = before ++ [e] /\ thrown e = Some err /\ failures before = []
    | Hangs => False
    end.
Proof.
  unfold saveResults_earlier, ensure_dir, writeFileSync, mkdirSync_recursive.
  simpl. step as found s1. destruct found; simpl.
  - step as [[]|e1] s2; [|save_case true].
    step as [] s3.
    step as [[]|e2] s4; [|save_case true].
    step as [] s5. save_case true.
  - step as [[]|e0] s2; [|save_case false].
    step as [[]|e1] s3; [|save_case false].
    step as [] s4.
    step as [[]|e2] s5; [|save_case false].
    step as [] s6. save_case false.
Qed.

End Writer.

(** A run in which nothing fails leaves the three artifacts. *)
Example save_all :
  files (run (memfs quiet) (@saveResults posix_like sample_result (js "/out")) empty_fs).2
  = {[ js "/out/state-machine.mmd" := reply;
       js "/out/analysis.txt" :=
         js "Files Analyzed:" ++ [LF] ++ js "a.py" ++ [LF] ++ js "b.py" ++ [LF; LF] ++
         js "Analysis:" ++ [LF] ++ js "One state." ++ [LF; LF] ++ reply;
       js "/out/view-diagram.html" := js "<div class='mermaid'>" ++ reply ++ js "</div>" ]}.
Proof. vm_compute. reflexivity. Qed.

(** The report cannot be written: the error is thrown, the diagram stays,
    the viewer document is not attempted. *)
Example save_blocked :
  (run (memfs quiet) (@saveResults posix_like sample_result (js "/out")) blocked_fs).1.2
    = Threw eisdir /\
  (write_attempts
     (run (memfs quiet) (@saveResults posix_like sample_result (js "/out")) blocked_fs).1.1).*1.*1
    = [js "/out/state-machine.mmd"; js "/out/analysis.txt"] /\
  files (run (memfs quiet) (@saveResults posix_like sample_result (js "/out")) blocked_fs).2
    = {[ js "/out/state-machine.mmd" := reply ]}.
Proof. repeat split; vm_compute; reflexivity. Qed.

(* ===================================================================== *)
(** * The main workflow *)
(* ===================================================================== *)

Section Workflow.
Context `{Platform} (E : Env) (this : CodeToFSMAnalyzer).

Lemma scanWorkspace_unfold :
  scanWorkspace this =
  (files <- scan_patterns this (filePatterns (options this)) [] ;; scan_sizes this files []).
Proof. reflexivity. Qed.

Opaque readFiles analyzeWithClaude scanWorkspace extractMermaidDiagram
  createAnalysisPrompt rule.

Lemma analyze_unfold (focusArea : option str) (selectedFiles : option (list str)) :
  analyze this focusArea selectedFiles =
  (console_log ([55357; 56589] ++ js " Scanning workspace...") ;;
   filePaths <-
     match selectedFiles with
     | Some sel => Ret (List.map (fun f => path_resolve (workspacePath this) f) sel)
     | None => scanWorkspace this
     end ;;
   analyze_from this focusArea filePaths).
Proof. reflexivity. Qed.

Lemma reads_or_warns_views (tr : list event) :
  Forall reads_or_warns tr ->
  glob_attempts tr = [] /\ stat_attempts tr = [] /\ write_attempts tr = [] /\
  spawned tr = [].
Proof.
  induction 1 as [|[o x] tr Hx _ IH]; [repeat split|].
  destruct o; try contradiction Hx; exact IH.
Qed.

Lemma glob_attempts_app (tr1 tr2 : list event) :
  glob_attempts (tr1 ++ tr2) = glob_attempts tr1 ++ glob_attempts tr2.
Proof. apply omap_app. Qed.

Lemma stat_attempts_app (tr1 tr2 : list event) :
  stat_attempts (tr1 ++ tr2) = stat_attempts tr1 ++ stat_attempts tr2.
Proof. apply omap_app. Qed.

Lemma read_attempts_app (tr1 tr2 : list event) :
  read_attempts (tr1 ++ tr2) = read_attempts tr1 ++ read_attempts tr2.
Proof. apply omap_app. Qed.

Lemma write_attempts_app (tr1 tr2 : list event) :
  write_attempts (tr1 ++ tr2) = write_attempts tr1 ++ write_attempts tr2.
Proof. apply omap_app. Qed.

Lemma spawned_app (tr1 tr2 : list event) :
  spawned (tr1 ++ tr2) = spawned tr1 ++ spawned tr2.
Proof. apply omap_app. Qed.

Create Rewrite HintDb views.
#[local] Hint Rewrite glob_attempts_app stat_attempts_app read_attempts_app
  write_attempts_app spawned_app : views.

(** What [analyze] does once it has the paths. No path: it throws [no_files]
    having read nothing, written nothing and spawned nothing. Otherwise
    it never scans; it reads every path, in order, and writes the prompt
    built from the records of the reads that succeeded; a result lists
    the paths of those records, and comes from a spawned child. *)
Lemma run_analyze_from (focusArea : option str) (filePaths : list str) (s : St E) :
  let '(tr, r, _) := run E (analyze_from this focusArea filePaths) s in
  glob_attempts tr = [] /\ stat_attempts tr = [] /\
  match filePaths with
  | [] => r = Threw no_files /\ read_attempts tr = [] /\ write_attempts tr = [] /\
          spawned tr = []
  | _ :: _ =>
      (read_attempts tr).*1 = filePaths /\
      (exists tmpFile written,
         write_attempts tr =
           [(tmpFile,
             createAnalysisPrompt (omap (record_of this) (read_attempts tr)) focusArea,
             written)]) /\
      (forall res, r = Returned res ->
         filesAnalyzed res = path <$> omap (record_of this) (read_attempts tr) /\
         extractMermaidDiagram (analysis res) = Ok (mermaidDiagram res) /\
         exists command events,
           spawned tr = [(command, events)] /\
           settled events [] [] = Returned (analysis res))
  end.
Proof.
  unfold analyze_from. simpl. step as [] s1.
  destruct filePaths as [|filePath rest]; simpl; [repeat split|].
  step as [] s2. rewrite run_bind.
  pose proof (run_readFiles E this (filePath :: rest) s2) as Hread.
  destruct (run E (readFiles _ _) s2) as [[tr1 r1] s3].
  destruct Hread as (Hpaths & -> & _ & Hall). simpl.
  destruct (reads_or_warns_views tr1 Hall) as (Hgl1 & Hst1 & Hwr1 & Hsp1).
  step as [] s4. rewrite run_bind.
  pose proof (run_analyzeWithClaude E
                (createAnalysisPrompt (omap (record_of this) (read_attempts tr1)) focusArea)
                s4) as Hshape.
  destruct (run E (analyzeWithClaude _) s4) as [[tr2 r2] s5].
  destruct Hshape as (tmpdir & now & written & Hwr2 & Hrd2 & Hgl2 & Hst2 & Hshape).
  destruct r2 as [response|e|]; simpl.
  - step as [] s6. step as [] s7. step as [] s8. step as [] s9. step as [] s10.
    step as [] s11.
    destruct written as [[]|e]; [|destruct Hshape as [Habs _]; discriminate Habs].
    destruct Hshape as (platform & [events|e] & _ & Hshape);
      [|destruct Hshape as [Habs _]; discriminate Habs].
    destruct Hshape as (Hsp2 & Hr2 & _).
    destruct (extractMermaidDiagram response) as [diagram|e] eqn:Hext; simpl;
      repeat (autorewrite with views; simpl);
      rewrite Hgl1, Hst1, Hwr1, Hsp1, Hgl2, Hst2, Hrd2, Hwr2, Hsp2, !app_nil_r; simpl;
      (split; [reflexivity|]); (split; [reflexivity|]); (split; [exact Hpaths|]);
      (split; [eexists _, _; reflexivity|]); intros res Hres; [|discriminate Hres].
    injection Hres as <-. simpl. split; [reflexivity|]. split; [exact Hext|].
    eexists _, _. split; [reflexivity|]. symmetry. exact Hr2.
  - repeat (autorewrite with views; simpl).
    rewrite Hgl1, Hst1, Hwr1, Hgl2, Hst2, Hrd2, Hwr2, !app_nil_r; simpl.
    repeat split; [exact Hpaths | eexists _, _; reflexivity | discriminate | discriminate
                  | discriminate ].
  - repeat (autorewrite with views; simpl).
    rewrite Hgl1, Hst1, Hwr1, Hgl2, Hst2, Hrd2, Hwr2, !app_nil_r; simpl.
    repeat split; [exact Hpaths | eexists _, _; reflexivity | discriminate | discriminate
                  | discriminate ].
Qed.

Lemma scan_patterns_calls (patterns files : list str) (s : St E) :
  Forall globs_or_stats (run E (scan_patterns this patterns files) s).1.1.
Proof.
  revert files s. induction patterns as [|pattern rest IH]; intros files s; simpl.
  - constructor.
  - step as [matches|e] s1; [|repeat constructor].
    specialize (IH (files ++ matches) s1).
    destruct (run E _ s1) as [[tr r] s2]. constructor; [exact I | exact IH].
Qed.

Lemma scan_sizes_calls (files validFiles : list str) (s : St E) :
  Forall globs_or_stats (run E (scan_sizes this files validFiles) s).1.1.
Proof.
  revert validFiles s. induction files as [|file rest IH]; intros validFiles s; simpl.
  - constructor.
  - step as [stats|e] s1; [|repeat constructor].
    destruct (size stats <=? maxFileSize (options this)).
    + specialize (IH (validFiles ++ [file]) s1).
      destruct (run E _ s1) as [[tr r] s2]. constructor; [exact I | exact IH].
    + specialize (IH validFiles s1).
      destruct (run E _ s1) as [[tr r] s2]. constructor; [exact I | exact IH].
Qed.

Lemma globs_or_stats_views (tr : list event) :
  Forall globs_or_stats tr ->
  read_attempts tr = [] /\ write_attempts tr = [] /\ spawned tr = [].
Proof.
  induction 1 as [|[o x] tr Hx _ IH]; [repeat split|].
  destruct o; try contradiction Hx; exact IH.
Qed.

Opaque analyze_from.

(** The oracle is spawned only after a read was attempted, that is only
    for a list of paths that is not empty; an empty selection is refused
    with [no_files] before anything is spawned. *)
Lemma analyze_needs_paths (focusArea : option str) (selectedFiles : option (list str))
    (s : St E) :
  let '(tr, r, _) := run E (analyze this focusArea selectedFiles) s in
  (spawned tr <> [] -> read_attempts tr <> []) /\
  (selectedFiles = Some [] -> r = Threw no_files /\ spawned tr = []).
Proof.
  rewrite analyze_unfold. simpl. step as [] s1. rewrite run_bind.
  destruct selectedFiles as [sel|]; simpl.
  - pose proof (run_analyze_from focusArea
                  (List.map (fun f => path_resolve (workspacePath this) f) sel) s1) as Hfrom.
    destruct (run E (analyze_from _ _ _) s1) as [[tr r] s2]. simpl.
    destruct Hfrom as (_ & _ & Hfrom). destruct sel as [|f sel]; simpl in Hfrom.
    + destruct Hfrom as (-> & _ & _ & ->). split; [intros []; reflexivity|].
      intros _. split; reflexivity.
    + destruct Hfrom as (Hrd & _). split; [|discriminate].
      intros _ Hnil. rewrite Hnil in Hrd. discriminate Hrd.
  - rewrite scanWorkspace_unfold, run_bind.
    pose proof (scan_patterns_calls (filePatterns (options this)) [] s1) as Hc1.
    destruct (run E (scan_patterns _ _ _) s1) as [[tr1 r1] s2]. simpl in Hc1.
    apply globs_or_stats_views in Hc1 as (Hrd1 & _ & Hsp1).
    destruct r1 as [all|e|]; simpl;
      [|split; [intros Hsp; contradiction | discriminate]
       |split; [intros Hsp; contradiction | discriminate]].
    pose proof (scan_sizes_calls all [] s2) as Hc2.
    destruct (run E (scan_sizes _ _ _) s2) as [[tr2 r2] s3]. simpl in Hc2.
    apply globs_or_stats_views in Hc2 as (Hrd2 & _ & Hsp2).
    destruct r2 as [filePaths|e|]; simpl;
      repeat (autorewrite with views; simpl); rewrite ?Hsp1, ?Hsp2, ?Hrd1, ?Hrd2; simpl;
      [|split; [intros Hsp; contradiction | discriminate]
       |split; [intros Hsp; contradiction | discriminate]].
    pose proof (run_analyze_from focusArea filePaths s3) as Hfrom.
    destruct (run E (analyze_from _ _ _) s3) as [[tr r] s4]. simpl.
    repeat (autorewrite with views; simpl). rewrite ?Hsp1, ?Hsp2, ?Hrd1, ?Hrd2. simpl.
    destruct Hfrom as (_ & _ & Hfrom). split; [|discriminate].
    destruct filePaths as [|f rest].
    + destruct Hfrom as (_ & _ & _ & ->). intros []. reflexivity.
    + destruct Hfrom as (Hrd & _). intros _ Hnil. rewrite Hnil in Hrd. discriminate Hrd.
Qed.

(** C10: with a list of selected files, [analyze] never calls the matcher
    and never looks up a status, so neither the include and exclude
    patterns nor the size ceiling are applied; it resolves each selected
    path against the workspace root and reads each of them, in order; and
    every selected file that could be read is in [filesAnalyzed]. *)
Theorem selected_files_bypass_scan (focusArea : option str) (selectedFiles : list str)
    (s : St E) :
  let '(tr, r, _) := run E (analyze this focusArea (Some selectedFiles)) s in
  glob_attempts tr = [] /\ stat_attempts tr = [] /\
  (selectedFiles <> [] ->
   (read_attempts tr).*1 = List.map (path_resolve (workspacePath this)) selectedFiles) /\
  (forall res, r = Returned res ->
     filesAnalyzed res = path <$> omap (record_of this) (read_attempts tr)).
Proof.
  rewrite analyze_unfold. simpl. step as [] s1.
  pose proof (run_analyze_from focusArea
                (List.map (fun f => path_resolve (workspacePath this) f) selectedFiles) s1)
    as Hfrom.
  destruct (run E (analyze_from _ _ _) s1) as [[tr r] s2]. simpl.
  destruct Hfrom as (Hgl & Hst & Hfrom). split; [exact Hgl|]. split; [exact Hst|].
  destruct selectedFiles as [|f sel]; simpl in Hfrom.
  - destruct Hfrom as (-> & _). split; [intros []; reflexivity | discriminate].
  - destruct Hfrom as (Hrd & _ & Hres). split; [intros _; exact Hrd|].
    intros res Hr. apply (Hres res Hr).
Qed.

Transparent readFiles analyzeWithClaude scanWorkspace extractMermaidDiagram
  createAnalysisPrompt rule analyze_from.

End Workflow.

(** C1: the code does not do what the claim says. The one selected file
    cannot be read, so the list of paths is not empty but the list of
    records is: the prompt is built from no file at all, the child is
    spawned on it, and the result has an empty [filesAnalyzed]. *)
Theorem analyze_all_unreadable_invokes_oracle :
  unreadable_run.1.2
    = Returned {| analysis := reply; mermaidDiagram := reply; filesAnalyzed := [] |} /\
  read_attempts unreadable_run.1.1 = [(js "/w/gone.py", Thrown enoent)] /\
  write_attempts unreadable_run.1.1
    = [(js "/tmp/claude-prompt-1700000000000.txt", createAnalysisPrompt [] None, Ok tt)] /\
  (spawned unreadable_run.1.1).*1
    = [shell_command false (js "/tmp/claude-prompt-1700000000000.txt")].
Proof. repeat split; vm_compute; reflexivity. Qed.

(** A selected file that the exclude patterns and the size ceiling of the
    analyzer would both reject is analyzed all the same. *)
Example selected_file_analyzed :
  (run (memfs reply_world)
       (@analyze posix_like strict_analyzer None (Some [js "vendor/big.py"]))
       strict_fs).1.2
  = Returned {| analysis := reply; mermaidDiagram := reply;
                filesAnalyzed := [js "vendor/big.py"] |}.
Proof. vm_compute. reflexivity. Qed.

(* ===================================================================== *)
(** * More on the extractor *)
(* ===================================================================== *)

Section ExtractorShape.

Lemma Ok_inj {A} (a b : A) : Ok a = Ok b -> a = b.
Proof. intros Hab. injection Hab as ->. reflexivity. Qed.

Lemma trim_start_idem (s : str) : trim_start (trim_start s) = trim_start s.
Proof.
  destruct (trim_start_head s) as [->|(c & r & -> & Hc)]; [reflexivity|].
  simpl. rewrite Hc. reflexivity.
Qed.

Lemma trim_start_snoc (l : str) (c : N) :
  is_js_space c = false -> trim_start (l ++ [c]) = trim_start l ++ [c].
Proof.
  intros Hc. induction l as [|a l IH]; simpl.
  - rewrite Hc. reflexivity.
  - destruct (is_js_space a); [exact IH | reflexivity].
Qed.

Lemma trim_end_cons (c : N) (s : str) :
  is_js_space c = false -> trim_end (c :: s) = c :: trim_end s.
Proof.
  intros Hc. unfold trim_end. simpl rev.
  rewrite (trim_start_snoc _ _ Hc), rev_app_distr. reflexivity.
Qed.

Lemma trim_end_app (p s : str) :
  forallb (fun c => negb (is_js_space c)) p = true ->
  trim_end (p ++ s) = p ++ trim_end s.
Proof.
  induction p as [|c p IH]; intros Hp; [reflexivity|].
  simpl in Hp. apply andb_true_iff in Hp as [Hc Hp].
  apply negb_true_iff in Hc.
  change ((c :: p) ++ s) with (c :: (p ++ s)).
  rewrite (trim_end_cons _ _ Hc), (IH Hp). reflexivity.
Qed.

Lemma trim_end_idem (s : str) : trim_end (trim_end s) = trim_end s.
Proof.
  unfold trim_end. rewrite rev_involutive, trim_start_idem. reflexivity.
Qed.

(** What [trim_start] removes is at the front. *)
Lemma trim_start_suffix (s : str) : exists ws, s = ws ++ trim_start s.
Proof.
  induction s as [|c s [ws IH]]; simpl; [exists []; reflexivity|].
  destruct (is_js_space c).
  - exists (c :: ws). simpl. f_equal. exact IH.
  - exists []. reflexivity.
Qed.

(** What [trim_end] removes is at the end. *)
Lemma trim_end_prefix (s : str) : exists ws, s = trim_end s ++ ws.
Proof.
  unfold trim_end. destruct (trim_start_suffix (rev s)) as [ws Hws].
  exists (rev ws). rewrite <- rev_app_distr, <- Hws, rev_involutive. reflexivity.
Qed.

Lemma trim_idem (s : str) : trim (trim s) = trim s.
Proof.
  unfold trim. destruct (trim_start_head s) as [->|(c & r & -> & Hc)]; [reflexivity|].
  rewrite (trim_end_cons _ _ Hc). simpl trim_start. rewrite Hc.
  rewrite <- (trim_end_cons _ _ Hc). apply trim_end_idem.
Qed.

Lemma trim_keyword (body : str) : trim (keyword ++ body) = keyword ++ trim_end body.
Proof.
  unfold trim.
  assert (trim_start (keyword ++ body) = keyword ++ body) as -> by reflexivity.
  apply trim_end_app. reflexivity.
Qed.

(** The first strategy, for a reply that contains the keyword: the text
    after the keyword up to the first block end. *)
Lemma diagram_re_block (s : str) :
  includes keyword s = true ->
  exists rest, diagram_re s = Some (keyword ++ lazy_block rest).
Proof.
  induction s as [|c s IH]; intros Hs; [discriminate Hs|].
  unfold diagram_re; fold diagram_re. unfold diagram_re_here.
  destruct (starts_with keyword (c :: s)) eqn:Hk; [eexists; reflexivity|].
  unfold includes in Hs; fold includes in Hs. rewrite Hk in Hs. apply IH, Hs.
Qed.

Lemma includes_at (needle s : str) :
  includes needle s = true -> exists j, starts_with needle (drop j s) = true.
Proof.
  induction s as [|c s IH]; simpl; intros Hs.
  - rewrite orb_false_r in Hs. exists 0%nat. exact Hs.
  - apply orb_true_iff in Hs as [Hs|Hs]; [exists 0%nat; exact Hs|].
    destruct (IH Hs) as [j Hj]. exists (S j). exact Hj.
Qed.

(** An occurrence of a text that begins with a line break cannot start
    inside a prefix without line breaks. *)
Lemma occurrence_after_prefix (p s n : str) (j : nat) :
  forallb (fun c => negb (c =? LF)) p = true ->
  starts_with (LF :: n) (drop j (p ++ s)) = true ->
  exists k, starts_with (LF :: n) (drop k s) = true.
Proof.
  revert j. induction p as [|c p IH]; intros j Hp Hocc; [exists j; exact Hocc|].
  cbn [forallb] in Hp. apply andb_true_iff in Hp as [Hc Hp].
  destruct j as [|j].
  - change (((LF =? c) && starts_with n (p ++ s)) = true) in Hocc.
    apply andb_true_iff in Hocc as [Hlf _].
    apply N.eqb_eq in Hlf. subst c. rewrite N.eqb_refl in Hc. discriminate Hc.
  - exact (IH j Hp Hocc).
Qed.

(** Inside the captured block, and so inside what is left of it after
    trimming, no block end occurs. *)
Lemma no_block_end_inside (rest n : str) (k : nat) :
  (forall t, block_end (LF :: n ++ t) = true) ->
  starts_with (LF :: n) (drop k (trim_end (lazy_block rest))) = false.
Proof.
  intros Hend. destruct (starts_with _ _) eqn:Hocc; [exfalso | reflexivity].
  destruct (lazy_block_shortest rest) as (tl & Hsplit & _ & Hmin).
  destruct (trim_end_prefix (lazy_block rest)) as [ws Hws].
  set (b := trim_end (lazy_block rest)) in *.
  assert (k < length b)%nat as Hk.
  { destruct (decide (k < length b)%nat) as [|Hge]; [assumption|].
    rewrite drop_ge in Hocc by lia. discriminate Hocc. }
  apply starts_with_split in Hocc.
  assert (drop k rest = LF :: n ++ (drop (length (LF :: n)) (drop k b) ++ ws ++ tl)) as Hrest.
  { rewrite Hsplit, Hws, <- app_assoc, drop_app_le by lia.
    rewrite Hocc at 1. simpl. rewrite <- app_assoc. reflexivity. }
  assert (k < length (lazy_block rest))%nat as Hk' by (rewrite Hws, length_app; lia).
  pose proof (Hmin k Hk') as Hno. rewrite Hrest, Hend in Hno. discriminate Hno.
Qed.

Lemma lazy_block_whole (b : str) :
  (forall j, (j < length b)%nat -> block_end (drop j b) = false) ->
  lazy_block b = b.
Proof.
  induction b as [|c b IH]; intros Hno; [reflexivity|].
  pose proof (Hno 0%nat ltac:(simpl; lia)) as H0.
  change (drop 0 (c :: b)) with (c :: b) in H0.
  unfold lazy_block; fold lazy_block. rewrite H0.
  f_equal. apply IH. intros j Hj. apply (Hno (S j)). simpl. lia.
Qed.

(** X1: for a reply that contains the keyword, the returned diagram
    starts with the keyword, has no white space at either end, and
    contains neither an empty line nor a line break followed by a fence:
    a diagram is cut at its first empty line. *)
Theorem keyword_diagram_shape (response d : str) :
  includes keyword response = true ->
  extractMermaidDiagram response = Ok d ->
  starts_with keyword d = true /\
  trim d = d /\
  includes [LF; LF] d = false /\
  includes (LF :: fence) d = false.
Proof.
  intros Hinc Hd. unfold extractMermaidDiagram in Hd.
  destruct (diagram_re_block response Hinc) as (rest & Hre).
  rewrite Hre in Hd. apply Ok_inj in Hd. subst d.
  split; [rewrite trim_keyword; apply starts_with_app|].
  split; [apply trim_idem|].
  rewrite trim_keyword. split.
  - destruct (includes [LF; LF] _) eqn:Hocc; [exfalso | reflexivity].
    apply includes_at in Hocc as [j Hj].
    apply (occurrence_after_prefix keyword _ [LF] j) in Hj as [k Hk]; [|reflexivity].
    rewrite (no_block_end_inside rest [LF] k) in Hk; [discriminate Hk|].
    intros t. reflexivity.
  - destruct (includes (LF :: fence) _) eqn:Hocc; [exfalso | reflexivity].
    apply includes_at in Hocc as [j Hj].
    apply (occurrence_after_prefix keyword _ fence j) in Hj as [k Hk]; [|reflexivity].
    rewrite (no_block_end_inside rest fence k) in Hk; [discriminate Hk|].
    intros t. reflexivity.
Qed.

Lemma keyword_diagram_shape_witness :
  starts_with keyword (js "stateDiagram-v2" ++ [LF] ++ js "  A --> B") = true /\
  trim (js "stateDiagram-v2" ++ [LF] ++ js "  A --> B")
    = js "stateDiagram-v2" ++ [LF] ++ js "  A --> B" /\
  includes [LF; LF] (js "stateDiagram-v2" ++ [LF] ++ js "  A --> B") = false /\
  includes (LF :: fence) (js "stateDiagram-v2" ++ [LF] ++ js "  A --> B") = false.
Proof.
  apply (keyword_diagram_shape
           (js "Two states." ++ [LF; LF] ++ js "stateDiagram-v2" ++ [LF] ++ js "  A --> B"
              ++ [LF; LF] ++ js "  B --> A" ++ [LF])).
  - vm_compute. reflexivity.
  - vm_compute. reflexivity.
Defined.

(** X2: extracting again from a diagram that was extracted from a reply
    with the keyword gives the same diagram. *)
Theorem keyword_diagram_fixpoint (response d : str) :
  includes keyword response = true ->
  extractMermaidDiagram response = Ok d ->
  extractMermaidDiagram d = Ok d.
Proof.
  intros Hinc Hd. unfold extractMermaidDiagram in Hd.
  destruct (diagram_re_block response Hinc) as (rest & Hre).
  rewrite Hre in Hd. apply Ok_inj in Hd. subst d. rewrite trim_keyword.
  set (b := trim_end (lazy_block rest)).
  assert (diagram_re (keyword ++ b) = Some (keyword ++ lazy_block b)) as Hre'.
  { apply (diagram_re_leftmost [] (keyword ++ b)).
    - apply starts_with_app.
    - intros i Hi. inversion Hi. }
  assert (lazy_block b = b) as Hb.
  { apply lazy_block_whole. intros j Hj. unfold block_end.
    unfold b. rewrite (no_block_end_inside rest [LF] j) by (intros t; reflexivity).
    rewrite (no_block_end_inside rest fence j) by (intros t; reflexivity).
    fold b. destruct (drop j b) eqn:Hdrop; [|reflexivity].
    apply (f_equal length) in Hdrop. rewrite length_drop in Hdrop. simpl in Hdrop. lia. }
  unfold extractMermaidDiagram. rewrite Hre', Hb, trim_keyword.
  unfold b. rewrite trim_end_idem. reflexivity.
Qed.

Lemma keyword_diagram_fixpoint_witness :
  extractMermaidDiagram (js "stateDiagram-v2" ++ [LF] ++ js "  A --> B")
  = Ok (js "stateDiagram-v2" ++ [LF] ++ js "  A --> B").
Proof.
  apply (keyword_diagram_fixpoint
           (js "Two states." ++ [LF; LF] ++ js "stateDiagram-v2" ++ [LF] ++ js "  A --> B"
              ++ [LF; LF] ++ js "  B --> A" ++ [LF])).
  - vm_compute. reflexivity.
  - vm_compute. reflexivity.
Defined.

(** X3: whatever strategy produced it, a returned diagram has no white
    space at either end; the reply itself, untrimmed, is never returned. *)
Theorem extracted_is_trimmed (response d : str) :
  extractMermaidDiagram response = Ok d -> trim d = d.
Proof.
  unfold extractMermaidDiagram. intros Hd.
  destruct (diagram_re response) as [m|] eqn:Hre.
  - apply Ok_inj in Hd. subst d. apply trim_idem.
  - destruct (code_block_re response) as [g|].
    + apply Ok_inj in Hd. subst d. apply trim_idem.
    + rewrite (last_resort_unreachable response Hre) in Hd. discriminate Hd.
Qed.

Lemma extracted_is_trimmed_witness :
  trim (js "graph TD") = js "graph TD".
Proof.
  apply (extracted_is_trimmed (mermaid_open ++ js "  graph TD " ++ [LF] ++ fence)).
  vm_compute. reflexivity.
Defined.

End ExtractorShape.

(* ===================================================================== *)
(** * More on the prompt *)
(* ===================================================================== *)

Section PromptShape.

Lemma join_holds (sep x : str) (l : list str) :
  x ∈ l -> exists pre post, join sep l = pre ++ x ++ post.
Proof.
  induction l as [|y l IH]; intros Hx; [inversion Hx|].
  apply elem_of_cons in Hx as [->|Hx].
  - destruct l as [|z l].
    + exists [], []. simpl. rewrite app_nil_r. reflexivity.
    + exists [], (sep ++ join sep (z :: l)). reflexivity.
  - destruct (IH Hx) as (pre & post & Hjoin). destruct l as [|z l]; [inversion Hx|].
    exists (y ++ sep ++ pre), post.
    change (join sep (y :: z :: l)) with (y ++ sep ++ join sep (z :: l)).
    rewrite Hjoin, <- !app_assoc. reflexivity.
Qed.

(** X4: the prompt holds, for every file record it is given, the
    record's path and its whole content between two fences, whatever the
    focus. *)
Theorem prompt_holds_every_file (files : list FileRecord) (focusArea : option str)
    (f : FileRecord) :
  f ∈ files ->
  exists pre post,
    createAnalysisPrompt files focusArea =
    pre ++ (js "File: " ++ path f ++ [LF] ++ fence ++ [LF] ++ content f ++ [LF] ++ fence ++ [LF])
        ++ post.
Proof.
  intros Hf.
  destruct (join_holds ([LF] ++ js "---" ++ [LF; LF]) (file_summary f)
              (List.map file_summary files)) as (pre & post & Hjoin).
  { apply list_elem_of_In, in_map, list_elem_of_In, Hf. }
  unfold createAnalysisPrompt. rewrite Hjoin.
  destruct (truthy_str focusArea) as [focus|].
  - exists (prompt_head ++ pre),
      (post ++ prompt_task ++ [LF] ++ js "Focus specifically on: " ++ focus ++ [LF]
         ++ prompt_tail).
    unfold file_summary. rewrite <- !app_assoc. reflexivity.
  - exists (prompt_head ++ pre), (post ++ prompt_task ++ prompt_tail).
    unfold file_summary. rewrite <- !app_assoc. reflexivity.
Qed.

Lemma prompt_holds_every_file_witness :
  exists pre post,
    createAnalysisPrompt [mkFile (js "a.py") (js "x = 1"); mkFile (js "b.py") (js "y = 2")]
      (Some (js "robot")) =
    pre ++ (js "File: " ++ js "b.py" ++ [LF] ++ fence ++ [LF] ++ js "y = 2" ++ [LF] ++ fence
              ++ [LF]) ++ post.
Proof.
  apply (prompt_holds_every_file
           [mkFile (js "a.py") (js "x = 1"); mkFile (js "b.py") (js "y = 2")]
           (Some (js "robot")) (mkFile (js "b.py") (js "y = 2"))).
  apply list_elem_of_further, list_elem_of_here.
Defined.

(** X5: an empty focus string is no focus at all; a focus that is not
    empty adds its directive just before the closing part of the prompt
    and changes nothing else. *)
Theorem focus_only_adds_directive (files : list FileRecord) :
  createAnalysisPrompt files (Some []) = createAnalysisPrompt files None /\
  exists before,
    createAnalysisPrompt files None = before ++ prompt_tail /\
    forall c focus,
      createAnalysisPrompt files (Some (c :: focus)) =
      before ++ ([LF] ++ js "Focus specifically on: " ++ (c :: focus) ++ [LF]) ++ prompt_tail.
Proof.
  split; [reflexivity|].
  exists (prompt_head ++
          join ([LF] ++ js "---" ++ [LF; LF]) (List.map file_summary files) ++ prompt_task).
  split.
  - unfold createAnalysisPrompt. cbn [truthy_str]. rewrite <- !app_assoc. reflexivity.
  - intros c focus. unfold createAnalysisPrompt. cbn [truthy_str].
    rewrite <- !app_assoc. reflexivity.
Qed.

End PromptShape.

(* ===================================================================== *)
(** * More on the scanner *)
(* ===================================================================== *)

Section ScannerMore.
Context (E : Env) (this : CodeToFSMAnalyzer).

(** X6: a scan that returns holds exactly the paths for which a status
    lookup reported a size of at most the ceiling, the ceiling itself
    included. *)
Theorem scan_keeps_up_to_ceiling (s : St E) (tr : list event) (validFiles : list str)
    (s' : St E) :
  run E (scanWorkspace this) s = (tr, Returned validFiles, s') ->
  forall file,
    file ∈ validFiles <->
    exists stats, (file, Ok stats) ∈ stat_attempts tr /\
                  size stats <= maxFileSize (options this).
Proof.
  intros Hrun file. pose proof (scanWorkspace_spec E this s) as Hspec.
  rewrite Hrun in Hspec. destruct Hspec as (_ & _ & ->).
  rewrite list_elem_of_omap. split.
  - intros ([f [stats|e]] & Hin & Hkept); unfold kept in Hkept; simpl in Hkept;
      [|discriminate Hkept].
    destruct (size stats <=? maxFileSize (options this)) eqn:Hsize; [|discriminate Hkept].
    injection Hkept as ->. exists stats. split; [exact Hin|]. apply N.leb_le, Hsize.
  - intros (stats & Hin & Hsize). exists (file, Ok stats). split; [exact Hin|].
    unfold kept. simpl. apply N.leb_le in Hsize. rewrite Hsize. reflexivity.
Qed.

Lemma scan_patterns_failure (patterns files : list str) (s : St E) :
  let '(tr, r, _) := run E (scan_patterns this patterns files) s in
  match r with
  | Returned _ => Forall glob_ok (glob_attempts tr)
  | Threw e =>
      exists before a, glob_attempts tr = before ++ [(a, Thrown e)] /\ Forall glob_ok before
  | Hangs => False
  end.
Proof.
  revert files s. induction patterns as [|pattern rest IH]; intros files s.
  - simpl. constructor.
  - simpl. step as [matches|e] s1.
    + specialize (IH (files ++ matches) s1).
      destruct (run E _ s1) as [[tr [all|e|]] s2]; [| |exact IH].
      * constructor; [reflexivity | exact IH].
      * destruct IH as (before & a & Hgl & Hok).
        eexists (_ :: before), a. split; [cbn; f_equal; exact Hgl|].
        constructor; [reflexivity | exact Hok].
    + eexists [], _. split; [reflexivity | constructor].
Qed.

(** X7: when the matcher throws for a pattern, the scan throws that
    error at once: no later pattern is tried and no status is looked
    up. *)
Theorem scan_stops_at_failed_glob (s : St E) (tr : list event)
    (r : outcome (list str)) (s' : St E)
    (a : str * str * list str) (e : Error) :
  run E (scanWorkspace this) s = (tr, r, s') ->
  (a, Thrown e) ∈ glob_attempts tr ->
  r = Threw e /\ last (glob_attempts tr) = Some (a, Thrown e) /\ stat_attempts tr = [].
Proof.
  unfold scanWorkspace. rewrite run_bind. intros Hrun Hin.
  pose proof (scan_patterns_failure (filePatterns (options this)) [] s) as Hfail.
  pose proof (scan_patterns_spec E this (filePatterns (options this)) [] s) as Hspec.
  destruct (run E (scan_patterns _ _ _) s) as [[tr1 [all|e1|]] s1];
    destruct Hspec as [Hstat1 _]; [| |contradiction].
  - exfalso.
    pose proof (scan_sizes_spec E this all [] s1) as Hsizes.
    destruct (run E (scan_sizes _ _ _) s1) as [[tr2 r2] s2].
    destruct Hsizes as [Hglob2 _]. injection Hrun as <- _ _.
    unfold glob_attempts in *. rewrite omap_app, Hglob2, app_nil_r in Hin.
    rewrite Forall_forall in Hfail. specialize (Hfail _ Hin). discriminate Hfail.
  - injection Hrun as <- <- _. destruct Hfail as (before & a1 & Hgl & Hok).
    rewrite Hgl in Hin |- *. apply elem_of_app in Hin as [Hin|Hin].
    + rewrite Forall_forall in Hok. specialize (Hok _ Hin). discriminate Hok.
    + apply list_elem_of_singleton in Hin. injection Hin as -> ->.
      split; [reflexivity|]. split; [apply last_snoc | exact Hstat1].
Qed.

Lemma scanWorkspace_calls (s : St E) :
  Forall globs_or_stats (run E (scanWorkspace this) s).1.1.
Proof.
  unfold scanWorkspace. rewrite run_bind.
  pose proof (scan_patterns_calls E this (filePatterns (options this)) [] s) as Hc1.
  destruct (run E (scan_patterns _ _ _) s) as [[tr1 [all|e|]] s1]; simpl in *;
    try exact Hc1.
  pose proof (scan_sizes_calls E this all [] s1) as Hc2.
  destruct (run E (scan_sizes _ _ _) s1) as [[tr2 r2] s2]. simpl in *.
  apply Forall_app. split; assumption.
Qed.

(** X8: a scan only calls the matcher and looks up statuses: it reads
    no file, writes nothing, prints nothing and spawns nothing. *)
Theorem scan_only_matches_and_stats (s : St E) :
  Forall globs_or_stats (run E (scanWorkspace this) s).1.1.
Proof. exact (scanWorkspace_calls s). Qed.

End ScannerMore.

Lemma scan_keeps_up_to_ceiling_witness :
  js "/w/ten.py" ∈ [js "/w/ten.py"] <->
  exists stats,
    (js "/w/ten.py", Ok stats)
      ∈ stat_attempts (run (memfs ceiling_world) (scanWorkspace ceiling_analyzer) ceiling_fs).1.1 /\
    size stats <= maxFileSize (options ceiling_analyzer).
Proof.
  apply (scan_keeps_up_to_ceiling (memfs ceiling_world) ceiling_analyzer ceiling_fs
           _ _ (run (memfs ceiling_world) (scanWorkspace ceiling_analyzer) ceiling_fs).2).
  vm_compute. reflexivity.
Defined.

Lemma scan_stops_at_failed_glob_witness :
  (run (memfs broken_glob_world) (scanWorkspace default_analyzer) empty_fs).1.2 = Threw eacces /\
  last (glob_attempts (run (memfs broken_glob_world) (scanWorkspace default_analyzer) empty_fs).1.1)
    = Some (asked default_analyzer (js "**/*.py"), Thrown eacces) /\
  stat_attempts (run (memfs broken_glob_world) (scanWorkspace default_analyzer) empty_fs).1.1 = [].
Proof.
  apply (scan_stops_at_failed_glob (memfs broken_glob_world) default_analyzer empty_fs
           _ _ (run (memfs broken_glob_world) (scanWorkspace default_analyzer) empty_fs).2).
  - vm_compute. reflexivity.
  - vm_compute. apply list_elem_of_here.
Defined.

(* ===================================================================== *)
(** * More on the oracle invoker *)
(* ===================================================================== *)

Section OracleMore.
Context `{Platform}.

(** X9: when the prompt cannot be written to the temporary file, the
    invocation throws the error of the write; the calls made are the
    banner, the temporary directory, the clock and the failed write:
    nothing is spawned and no cleanup is attempted. *)
Theorem oracle_write_failure (E : Env) (prompt : str) (s : St E)
    (tr : list event) (r : outcome str) (s' : St E) (tmpFile data : str) (e : Error) :
  run E (analyzeWithClaude prompt) s = (tr, r, s') ->
  write_attempts tr = [(tmpFile, data, Thrown e)] ->
  r = Threw e /\
  calls tr = [ConsoleLog oracle_banner; OsTmpdir; DateNow; WriteFileSync tmpFile prompt].
Proof.
  intros Hrun Hwr. pose proof (run_analyzeWithClaude E prompt s) as Hshape.
  rewrite Hrun in Hshape.
  destruct Hshape as (tmpdir & now & written & Hwr' & _ & _ & _ & Hshape).
  rewrite Hwr in Hwr'. injection Hwr' as -> -> <-.
  destruct Hshape as (Hr & _ & _ & _ & Hcalls). split; [exact Hr | exact Hcalls].
Qed.


(** X22: when the [spawn] step throws, the invocation is rejected with
    that very error, not with the failed-to-start message; the calls end
    at the spawn, so the removal of the temporary file, which only the
    listeners make, is never attempted. *)
Theorem spawn_throw_rejects (E : Env) (prompt : str) (s : St E)
    (tr : list event) (r : outcome str) (s' : St E) (command : str) (e : Error) :
  run E (analyzeWithClaude prompt) s = (tr, r, s') ->
  spawn_attempts tr = [(command, Thrown e)] ->
  r = Threw e /\ unlink_attempts tr = [] /\
  exists tmpFile,
    write_attempts tr = [(tmpFile, prompt, Ok tt)] /\
    calls tr = [ConsoleLog oracle_banner; OsTmpdir; DateNow; WriteFileSync tmpFile prompt;
                ProcessPlatform; Spawn command].
Proof.
  intros Hrun Hat.
  pose proof (run_analyzeWithClaude E prompt s) as Hshape. rewrite Hrun in Hshape.
  destruct Hshape as (tmpdir & now & written & Hwr & _ & _ & _ & Hshape).
  destruct written as [[]|e'].
  - destruct Hshape as (platform & child & Hat' & Hshape).
    rewrite Hat in Hat'. injection Hat' as -> <-.
    destruct Hshape as (Hr & _ & Hun & Hca). repeat split; [exact Hr | exact Hun |].
    eexists. split; [exact Hwr | exact Hca].
  - destruct Hshape as (_ & Hnone & _). rewrite Hnone in Hat. discriminate Hat.
Qed.

(** The listeners on the in-memory file system: the first removal takes
    the temporary file away, the later ones find nothing to remove. *)
Lemma run_listen_memfs (w : Outside) (tmpFile : str) (events : list ChildEvent)
    (output errorOutput : str) (promise : option (result str)) (fs : MemFs) :
  let fs' := (run (memfs w) (listen tmpFile events output errorOutput promise) fs).2 in
  dirs fs' = dirs fs /\
  files fs' = match removals events with
              | O => files fs
              | S _ => delete tmpFile (files fs)
              end.
Proof.
  revert output errorOutput promise fs. unfold removals.
  induction events as [|[data|data|code|err] rest IH]; intros output errorOutput promise fs.
  - simpl. destruct promise as [[value|e]|]; split; reflexivity.
  - apply IH.
  - apply IH.
  - specialize (IH output errorOutput
                   (settle promise
                      (if code_nonzero code then Thrown (exit_error code errorOutput)
                       else Ok (trim output)))
                   (mkFs (delete tmpFile (files fs)) (dirs fs))).
    simpl in *. destruct (files fs !! tmpFile); simpl;
      destruct (run (memfs w) _ _) as [[tr r] fs']; simpl in *;
      destruct IH as [Hdirs Hfiles]; (split; [exact Hdirs|]); rewrite Hfiles;
      destruct (length (List.filter ends rest)); try reflexivity; apply delete_delete_eq.
  - specialize (IH output errorOutput (settle promise (Thrown (start_error err)))
                   (mkFs (delete tmpFile (files fs)) (dirs fs))).
    simpl in *. destruct (files fs !! tmpFile); simpl;
      destruct (run (memfs w) _ _) as [[tr r] fs']; simpl in *;
      destruct IH as [Hdirs Hfiles]; (split; [exact Hdirs|]); rewrite Hfiles;
      destruct (length (List.filter ends rest)); try reflexivity; apply delete_delete_eq.
Qed.

(** What a run of [analyzeWithClaude] on the in-memory file system leaves
    behind: the temporary file is gone when a child was started and the
    promise is settled; it is there, with the prompt in it, when [spawn]
    threw and when the promise is pending. *)
Lemma run_analyzeWithClaude_memfs (w : Outside) (prompt : str) (fs : MemFs) :
  let tmpFile := path_join (out_tmpdir w) (tmp_name (out_now w)) in
  let '(tr, r, fs') := run (memfs w) (analyzeWithClaude prompt) fs in
  dirs fs' = dirs fs /\
  match write_attempts tr with
  | [(file, data, Ok _)] =>
      file = tmpFile /\ data = prompt /\
      files fs' = match spawned tr, r with
                  | _ :: _, Returned _ | _ :: _, Threw _ => delete tmpFile (files fs)
                  | _, _ => <[tmpFile := prompt]> (files fs)
                  end
  | _ => files fs' = files fs
  end.
Proof.
  unfold analyzeWithClaude. simpl. unfold writeFileSync, spawn. simpl.
  destruct (bool_decide (path_join (out_tmpdir w) (tmp_name (out_now w)) ∈ dirs fs));
    simpl; [split; reflexivity|].
  destruct (out_child w _) as [events|e]; simpl; [|repeat split].
  match goal with
  | |- context [run ?E (listen ?f ?ev ?o ?eo ?p) ?st] =>
      pose proof (run_listen E f ev o eo p st) as Hl;
      pose proof (run_listen_memfs w f ev o eo p st) as Hm;
      destruct (run E (listen f ev o eo p) st) as [[tr r] fs']
  end.
  destruct Hl as (Hr & answers & _ & ->). cbv zeta in Hm. simpl in Hm.
  destruct Hm as [Hdirs Hfiles].
  destruct (unlinks_views (path_join (out_tmpdir w) (tmp_name (out_now w))) answers)
    as (_ & _ & _ & Hwr & _ & Hsp & _).
  match goal with
  | |- context [write_attempts (?a :: ?b :: ?c :: ?d :: ?e :: ?f :: ?t)] =>
      change (write_attempts (a :: b :: c :: d :: e :: f :: t))
        with ((path_join (out_tmpdir w) (tmp_name (out_now w)), prompt, Ok tt)
              :: write_attempts t);
      change (spawned (a :: b :: c :: d :: e :: f :: t))
        with ((shell_command (str_eqb (out_platform w) (js "win32"))
                 (path_join (out_tmpdir w) (tmp_name (out_now w))), events)
              :: spawned t)
  end.
  rewrite Hwr. split; [exact Hdirs|]. repeat split.
  rewrite Hfiles.
  pose proof (settled_hangs events [] []) as Hh. rewrite <- Hr in Hh.
  destruct (removals events) as [|n].
  - rewrite (proj2 Hh eq_refl). reflexivity.
  - destruct r; [apply delete_insert_eq | apply delete_insert_eq |].
    discriminate (proj1 Hh eq_refl).
Qed.

(** On the in-memory file system, where a removal takes the file away,
    the temporary file is gone whenever a child was started and the
    invocation ends. *)
Lemma temp_file_gone (w : Outside) (prompt : str) (fs : MemFs)
    (tr : list event) (r : outcome str) (fs' : MemFs)
    (tmpFile command : str) (events : list ChildEvent) :
  run (memfs w) (analyzeWithClaude prompt) fs = (tr, r, fs') ->
  write_attempts tr = [(tmpFile, prompt, Ok tt)] ->
  spawned tr = [(command, events)] ->
  r <> Hangs ->
  files fs' !! tmpFile = None.
Proof.
  intros Hrun Hwr Hsp Hends. pose proof (run_analyzeWithClaude_memfs w prompt fs) as Hmem.
  cbv zeta in Hmem. rewrite Hrun, Hwr, Hsp in Hmem.
  destruct Hmem as (_ & -> & _ & ->).
  destruct r; [apply lookup_delete_eq | apply lookup_delete_eq | contradiction].
Qed.

(** X11: a child that never closes leaves the invocation pending and
    its prompt file behind: no cleanup is made on that path. *)
Theorem hanging_child_leaves_prompt_file (w : Outside) (prompt : str) (fs : MemFs)
    (tr : list event) (fs' : MemFs) (tmpFile : str) :
  run (memfs w) (analyzeWithClaude prompt) fs = (tr, Hangs, fs') ->
  write_attempts tr = [(tmpFile, prompt, Ok tt)] ->
  files fs' !! tmpFile = Some prompt.
Proof.
  intros Hrun Hwr. pose proof (run_analyzeWithClaude_memfs w prompt fs) as Hmem.
  cbv zeta in Hmem. rewrite Hrun, Hwr in Hmem.
  destruct Hmem as (_ & -> & _ & ->).
  destruct (spawned tr); apply lookup_insert_eq.
Qed.

(** X12: apart from its temporary file, the invocation leaves the
    file system as it found it, however it ends: every other file keeps
    its content and no directory appears. *)
Theorem oracle_touches_only_temp_file (w : Outside) (prompt : str) (fs : MemFs)
    (file : str) :
  file <> path_join (out_tmpdir w) (tmp_name (out_now w)) ->
  files (run (memfs w) (analyzeWithClaude prompt) fs).2 !! file = files fs !! file /\
  dirs (run (memfs w) (analyzeWithClaude prompt) fs).2 = dirs fs.
Proof.
  intros Hne. pose proof (run_analyzeWithClaude_memfs w prompt fs) as Hmem.
  cbv zeta in Hmem.
  destruct (run (memfs w) (analyzeWithClaude prompt) fs) as [[tr r] fs']. simpl.
  destruct Hmem as [Hdirs Hfiles]. split; [|exact Hdirs].
  destruct (write_attempts tr) as [|[[f d] [[]|e]] [|? ?]]; try (rewrite Hfiles; reflexivity).
  destruct Hfiles as (_ & _ & ->).
  destruct (spawned tr), r;
    first [apply lookup_delete_ne | apply lookup_insert_ne]; congruence.
Qed.

End OracleMore.

Lemma oracle_write_failure_witness :
  blocked_oracle_run.1.2 = Threw eisdir /\
  calls blocked_oracle_run.1.1
    = [ConsoleLog oracle_banner; OsTmpdir; DateNow;
       WriteFileSync (js "/tmp/claude-prompt-1700000000000.txt") (js "prompt")].
Proof.
  apply (@oracle_write_failure posix_like (memfs quiet) (js "prompt") tmp_blocked_fs
           blocked_oracle_run.1.1 blocked_oracle_run.1.2 blocked_oracle_run.2
           (js "/tmp/claude-prompt-1700000000000.txt") (js "prompt") eisdir).
  - vm_compute. reflexivity.
  - vm_compute. reflexivity.
Defined.


(** The run without a shell on Windows makes two removals: one for the
    ['error'] event and one for the ['close'] event that follows it. *)
Example two_removals :
  removals no_shell = 2%nat /\
  unlink_attempts windows_oracle_run.1.1
    = [(js "/tmp/claude-prompt-1700000000000.txt", Ok tt);
       (js "/tmp/claude-prompt-1700000000000.txt", Thrown enoent)].
Proof. split; vm_compute; reflexivity. Qed.

Lemma spawn_throw_rejects_witness :
  overloaded_oracle_run.1.2 = Threw e2big /\
  unlink_attempts overloaded_oracle_run.1.1 = [] /\
  exists tmpFile,
    write_attempts overloaded_oracle_run.1.1 = [(tmpFile, js "prompt", Ok tt)] /\
    calls overloaded_oracle_run.1.1
      = [ConsoleLog oracle_banner; OsTmpdir; DateNow; WriteFileSync tmpFile (js "prompt");
         ProcessPlatform;
         Spawn (shell_command false (js "/tmp/claude-prompt-1700000000000.txt"))].
Proof.
  apply (@spawn_throw_rejects posix_like (memfs overloaded_world) (js "prompt") empty_fs
           overloaded_oracle_run.1.1 overloaded_oracle_run.1.2 overloaded_oracle_run.2
           (shell_command false (js "/tmp/claude-prompt-1700000000000.txt")) e2big).
  - vm_compute. reflexivity.
  - vm_compute. reflexivity.
Defined.

Lemma hanging_child_leaves_prompt_file_witness :
  files hanging_oracle_run.2 !! js "/tmp/claude-prompt-1700000000000.txt" = Some (js "prompt").
Proof.
  apply (@hanging_child_leaves_prompt_file posix_like hanging_world (js "prompt") empty_fs
           hanging_oracle_run.1.1).
  - vm_compute. reflexivity.
  - vm_compute. reflexivity.
Defined.

Lemma oracle_touches_only_temp_file_witness :
  files (run (memfs reply_world) (@analyzeWithClaude posix_like (js "prompt")) two_files_fs).2
    !! js "/w/a.py" = files two_files_fs !! js "/w/a.py" /\
  dirs (run (memfs reply_world) (@analyzeWithClaude posix_like (js "prompt")) two_files_fs).2
    = dirs two_files_fs.
Proof.
  apply (@oracle_touches_only_temp_file posix_like reply_world (js "prompt") two_files_fs
           (js "/w/a.py")).
  vm_compute. discriminate.
Defined.

(* ===================================================================== *)
(** * More on the main workflow *)
(* ===================================================================== *)

Section WorkflowMore.
Context `{Platform} (E : Env) (this : CodeToFSMAnalyzer).

Lemma mutations_app (tr1 tr2 : list event) :
  mutations (tr1 ++ tr2) = mutations tr1 ++ mutations tr2.
Proof. apply omap_app. Qed.

Create Rewrite HintDb effects.
#[local] Hint Rewrite glob_attempts_app stat_attempts_app read_attempts_app
  write_attempts_app spawned_app mutations_app : effects.

Lemma reads_or_warns_quiet (tr : list event) :
  Forall reads_or_warns tr -> mutations tr = [].
Proof.
  induction 1 as [|[o x] tr Hx _ IH]; [reflexivity|].
  destruct o; try contradiction Hx; exact IH.
Qed.

Lemma globs_or_stats_quiet (tr : list event) :
  Forall globs_or_stats tr -> mutations tr = [].
Proof.
  induction 1 as [|[o x] tr Hx _ IH]; [reflexivity|].
  destruct o; try contradiction Hx; exact IH.
Qed.

(** The calls of a trace that change the file system, from its calls. *)
Lemma mutations_calls (tr : list event) : mutations tr = omap mutating (calls tr).
Proof.
  induction tr as [|[o x] tr IH]; [reflexivity|].
  unfold mutations, calls in *. cbn. rewrite IH. reflexivity.
Qed.

Lemma mutating_removals (n : nat) (tmpFile : str) :
  omap mutating (replicate n (UnlinkSync tmpFile)) = replicate n (UnlinkSync tmpFile).
Proof. induction n as [|n IH]; [reflexivity|]. cbn. f_equal. exact IH. Qed.

(** What a run of [analyzeWithClaude] reads, writes, spawns and
    changes. After a successful write either [spawn] throws, and the
    write is the only change, or a child is started, and the write is
    followed by one removal for each ['close'] and each ['error']. *)
Lemma run_analyzeWithClaude_effects (prompt : str) (s : St E) :
  let '(tr, r, _) := run E (analyzeWithClaude prompt) s in
  read_attempts tr = [] /\ glob_attempts tr = [] /\ stat_attempts tr = [] /\
  exists tmpFile written,
    write_attempts tr = [(tmpFile, prompt, written)] /\
    match written with
    | Thrown e =>
        r = Threw e /\ spawned tr = [] /\ mutations tr = [WriteFileSync tmpFile prompt]
    | Ok _ =>
        (exists e,
           r = Threw e /\ spawned tr = [] /\ mutations tr = [WriteFileSync tmpFile prompt]) \/
        (exists command events,
           spawned tr = [(command, events)] /\
           r = settled events [] [] /\
           mutations tr =
             WriteFileSync tmpFile prompt :: replicate (removals events) (UnlinkSync tmpFile))
    end.
Proof.
  pose proof (run_analyzeWithClaude E prompt s) as Hshape.
  destruct (run E (analyzeWithClaude prompt) s) as [[tr r] s'].
  destruct Hshape as (tmpdir & now & written & Hwr & Hrd & Hgl & Hst & Hshape).
  split; [exact Hrd|]. split; [exact Hgl|]. split; [exact Hst|].
  exists (path_join tmpdir (tmp_name now)), written. split; [exact Hwr|].
  rewrite mutations_calls.
  destruct written as [[]|e].
  - destruct Hshape as (platform & [events|e] & _ & Hshape).
    + destruct Hshape as (Hsp & Hr & answers & _ & _ & Hcalls). right.
      eexists _, events. split; [exact Hsp|]. split; [exact Hr|].
      rewrite Hcalls, !omap_app, mutating_removals. reflexivity.
    + destruct Hshape as (Hr & Hsp & _ & Hcalls). left.
      exists e. split; [exact Hr|]. split; [exact Hsp|]. rewrite Hcalls. reflexivity.
  - destruct Hshape as (Hr & _ & Hsp & _ & Hcalls).
    split; [exact Hr|]. split; [exact Hsp|]. rewrite Hcalls. reflexivity.
Qed.

Opaque readFiles analyzeWithClaude scanWorkspace extractMermaidDiagram
  createAnalysisPrompt rule.

(** [analyze] from a list of paths that is not empty: what it reads,
    writes, spawns and changes, and how it ends. *)
Lemma run_analyze_from_outcome (focusArea : option str) (filePath : str)
    (rest : list str) (s : St E) :
  let '(tr, r, _) := run E (analyze_from this focusArea (filePath :: rest)) s in
  let files := omap (record_of this) (read_attempts tr) in
  glob_attempts tr = [] /\ stat_attempts tr = [] /\
  (read_attempts tr).*1 = filePath :: rest /\
  exists tmpFile written,
    write_attempts tr = [(tmpFile, createAnalysisPrompt files focusArea, written)] /\
    match written with
    | Thrown e =>
        r = Threw e /\ spawned tr = [] /\
        mutations tr = [WriteFileSync tmpFile (createAnalysisPrompt files focusArea)]
    | Ok _ =>
        (exists e,
           r = Threw e /\ spawned tr = [] /\
           mutations tr = [WriteFileSync tmpFile (createAnalysisPrompt files focusArea)]) \/
        (exists command events,
           spawned tr = [(command, events)] /\
           r = analysis_outcome files events /\
           mutations tr =
             WriteFileSync tmpFile (createAnalysisPrompt files focusArea) ::
             replicate (removals events) (UnlinkSync tmpFile))
    end.
Proof.
  unfold analyze_from. simpl. step as [] s1. step as [] s2. rewrite run_bind.
  pose proof (run_readFiles E this (filePath :: rest) s2) as Hread.
  destruct (run E (readFiles _ _) s2) as [[tr1 r1] s3].
  destruct Hread as (Hpaths & -> & _ & Hall). simpl.
  destruct (reads_or_warns_views tr1 Hall) as (Hgl1 & Hst1 & Hwr1 & Hsp1).
  pose proof (reads_or_warns_quiet tr1 Hall) as Hmu1.
  step as [] s4. rewrite run_bind.
  pose proof (run_analyzeWithClaude_effects
                (createAnalysisPrompt (omap (record_of this) (read_attempts tr1)) focusArea)
                s4) as Heff.
  destruct (run E (analyzeWithClaude _) s4) as [[tr2 r2] s5].
  destruct Heff as (Hrd2 & Hgl2 & Hst2 & tmpFile & written & Hwr2 & Heff).
  destruct r2 as [response|e|]; simpl.
  - step as [] s6. step as [] s7. step as [] s8. step as [] s9. step as [] s10.
    step as [] s11.
    destruct written as [[]|e]; [|destruct Heff as [Habs _]; discriminate Habs].
    destruct Heff as [(e & Habs & _)|(command & events & Hsp2 & Hr2 & Hmu2)];
      [discriminate Habs|].
    destruct (extractMermaidDiagram response) as [diagram|e] eqn:Hext; simpl;
      repeat (autorewrite with effects; simpl);
      rewrite Hgl1, Hst1, Hwr1, Hsp1, Hmu1, Hgl2, Hst2, Hrd2, Hwr2, Hsp2, Hmu2, !app_nil_r;
      simpl; (split; [reflexivity|]); (split; [reflexivity|]); (split; [exact Hpaths|]);
      exists tmpFile, (Ok tt); (split; [reflexivity|]); right;
      exists command, events; unfold analysis_outcome; rewrite <- Hr2, Hext; repeat split.
  - repeat (autorewrite with effects; simpl).
    rewrite Hgl1, Hst1, Hwr1, Hsp1, Hmu1, Hgl2, Hst2, Hrd2, Hwr2, !app_nil_r. simpl.
    (split; [reflexivity|]); (split; [reflexivity|]); (split; [exact Hpaths|]).
    exists tmpFile, written. split; [reflexivity|].
    destruct written as [[]|e'].
    + destruct Heff as [(e0 & Hr2 & Hsp2 & Hmu2)|(command & events & Hsp2 & Hr2 & Hmu2)].
      * left. exists e0. rewrite Hsp2, Hmu2. injection Hr2 as ->. repeat split.
      * right. exists command, events. unfold analysis_outcome. rewrite <- Hr2.
        rewrite Hsp2, Hmu2. repeat split.
    + destruct Heff as (Hr2 & Hsp2 & Hmu2). rewrite Hsp2, Hmu2. injection Hr2 as ->.
      repeat split.
  - repeat (autorewrite with effects; simpl).
    rewrite Hgl1, Hst1, Hwr1, Hsp1, Hmu1, Hgl2, Hst2, Hrd2, Hwr2, !app_nil_r. simpl.
    (split; [reflexivity|]); (split; [reflexivity|]); (split; [exact Hpaths|]).
    exists tmpFile, written. split; [reflexivity|].
    destruct written as [[]|e'].
    + destruct Heff as [(e0 & Hr2 & _)|(command & events & Hsp2 & Hr2 & Hmu2)];
        [discriminate Hr2|].
      right. exists command, events. unfold analysis_outcome. rewrite <- Hr2.
      rewrite Hsp2, Hmu2. repeat split.
    + destruct Heff as (Hr2 & _). discriminate Hr2.
Qed.


Opaque analyze_from.

(** A run of [analyze] is the first log line, then the scan when no file
    is selected, then [analyze_from] on the paths. *)
Lemma analyze_decompose (focusArea : option str) (selectedFiles : option (list str))
    (s : St E) (tr : list event) (r : outcome AnalysisResult) (s' : St E) :
  run E (analyze this focusArea selectedFiles) s = (tr, r, s') ->
  exists s1 tr0 trA,
    tr = Ev (ConsoleLog ([55357; 56589] ++ js " Scanning workspace...")) tt :: tr0 ++ trA /\
    match selectedFiles with
    | Some sel =>
        tr0 = [] /\
        run E (analyze_from this focusArea
                 (List.map (path_resolve (workspacePath this)) sel)) s1 = (trA, r, s')
    | None =>
        exists r0 s0,
          run E (scanWorkspace this) s1 = (tr0, r0, s0) /\
          match r0 with
          | Returned filePaths => run E (analyze_from this focusArea filePaths) s0 = (trA, r, s')
          | Threw e => trA = [] /\ r = Threw e
          | Hangs => trA = [] /\ r = Hangs
          end
    end.
Proof.
  rewrite analyze_unfold. simpl. step as [] s1. rewrite run_bind.
  destruct selectedFiles as [sel|]; simpl.
  - destruct (run E (analyze_from _ _ _) s1) as [[trA rA] sA] eqn:HA.
    intros Hrun. injection Hrun as <- <- <-. exists s1, [], trA. repeat split.
    exact HA.
  - destruct (run E (scanWorkspace this) s1) as [[tr0 [filePaths|e|]] s0] eqn:H0.
    + destruct (run E (analyze_from _ _ _) s0) as [[trA rA] sA] eqn:HA.
      intros Hrun. injection Hrun as <- <- <-. exists s1, tr0, trA. split; [reflexivity|].
      exists (Returned filePaths), s0. split; [exact H0 | exact HA].
    + intros Hrun. injection Hrun as <- <- <-. exists s1, tr0, [].
      rewrite app_nil_r. split; [reflexivity|]. exists (Threw e), s0.
      split; [exact H0 | split; reflexivity].
    + intros Hrun. injection Hrun as <- <- <-. exists s1, tr0, [].
      rewrite app_nil_r. split; [reflexivity|]. exists Hangs, s0.
      split; [exact H0 | split; reflexivity].
Qed.

(** The scan part of a run reads, writes, spawns and changes nothing. *)
Lemma scan_part_quiet (s1 : St E) (tr0 : list event) (r0 : outcome (list str))
    (s0 : St E) :
  run E (scanWorkspace this) s1 = (tr0, r0, s0) ->
  read_attempts tr0 = [] /\ write_attempts tr0 = [] /\ spawned tr0 = [] /\ mutations tr0 = [].
Proof.
  intros H0. pose proof (scanWorkspace_calls E this s1) as Hcalls.
  rewrite H0 in Hcalls. simpl in Hcalls.
  destruct (globs_or_stats_views _ Hcalls) as (Hrd & Hwr & Hsp).
  pose proof (globs_or_stats_quiet _ Hcalls) as Hmu. repeat split; assumption.
Qed.

(** X13: once the child is spawned, the way [analyze] ends is a function
    of the child's events and of the records read: the rejection of the
    oracle and the failure of the extraction are thrown as they are, a
    child that never closes leaves [analyze] pending, and a result holds
    the trimmed reply, the diagram extracted from it and the paths of the
    records. *)
Theorem analyze_outcome_from_child (focusArea : option str)
    (selectedFiles : option (list str)) (s : St E)
    (tr : list event) (r : outcome AnalysisResult) (s' : St E)
    (command : str) (events : list ChildEvent) :
  run E (analyze this focusArea selectedFiles) s = (tr, r, s') ->
  spawned tr = [(command, events)] ->
  r = analysis_outcome (omap (record_of this) (read_attempts tr)) events.
Proof.
  intros Hrun Hsp.
  destruct (analyze_decompose _ _ _ _ _ _ Hrun) as (s1 & tr0 & trA & -> & Hparts).
  assert (read_attempts tr0 = [] /\ spawned tr0 = [] /\
          exists filePaths s0, run E (analyze_from this focusArea filePaths) s0 = (trA, r, s'))
    as (Hrd0 & Hsp0 & filePaths & s0 & HA).
  { destruct selectedFiles as [sel|].
    - destruct Hparts as [-> HA]. repeat split. eauto.
    - destruct Hparts as (r0 & s0 & H0 & Hparts).
      pose proof (scan_part_quiet _ _ _ _ H0) as Hq.
      destruct Hq as (Hrd0 & _ & Hsp0 & _).
      destruct r0 as [filePaths|e|]; [repeat split; eauto| |];
        destruct Hparts as [-> _]; exfalso; revert Hsp;
        autorewrite with effects; simpl; autorewrite with effects;
        rewrite Hsp0; discriminate. }
  revert Hsp. autorewrite with effects. simpl. autorewrite with effects.
  rewrite Hrd0, Hsp0. simpl. intros Hsp.
  destruct filePaths as [|filePath rest].
  - pose proof (run_analyze_from E this focusArea [] s0) as Hfrom. rewrite HA in Hfrom.
    destruct Hfrom as (_ & _ & _ & _ & _ & Hnone). rewrite Hnone in Hsp. discriminate Hsp.
  - pose proof (run_analyze_from_outcome focusArea filePath rest s0) as Hfrom.
    rewrite HA in Hfrom. cbv zeta in Hfrom.
    destruct Hfrom as (_ & _ & _ & tmpFile & [[]|e] & _ & Hfrom).
    + destruct Hfrom as [(e & _ & Hnone & _)|(command' & events' & Hsp' & Hr & _)].
      * rewrite Hnone in Hsp. discriminate Hsp.
      * rewrite Hsp in Hsp'. injection Hsp' as _ <-. exact Hr.
    + destruct Hfrom as (_ & Hnone & _). rewrite Hnone in Hsp. discriminate Hsp.
Qed.

(** X14: without a selection, a run that returns has read exactly the
    paths the scan kept, in the order in which the matcher reported them
    pattern by pattern; the prompt is built from the records of the reads
    that succeeded, in that order, and [filesAnalyzed] lists their paths
    in that order. *)
Theorem analysis_keeps_scan_order (focusArea : option str) (s : St E)
    (tr : list event) (res : AnalysisResult) (s' : St E) :
  run E (analyze this focusArea None) s = (tr, Returned res, s') ->
  (stat_attempts tr).*1 = concat (matched <$> glob_attempts tr) /\
  (read_attempts tr).*1 = omap (kept this) (stat_attempts tr) /\
  (exists tmpFile,
     write_attempts tr =
       [(tmpFile,
         createAnalysisPrompt (omap (record_of this) (read_attempts tr)) focusArea,
         Ok tt)]) /\
  filesAnalyzed res = List.map path (omap (record_of this) (read_attempts tr)).
Proof.
  intros Hrun.
  destruct (analyze_decompose _ _ _ _ _ _ Hrun) as (s1 & tr0 & trA & -> & Hparts).
  destruct Hparts as (r0 & s0 & H0 & Hparts).
  pose proof (scan_part_quiet _ _ _ _ H0) as Hq.
  destruct Hq as (Hrd0 & Hwr0 & _ & _).
  pose proof (scanWorkspace_spec E this s1) as Hscan. rewrite H0 in Hscan.
  destruct r0 as [filePaths|e|]; [|destruct Hparts as [_ Hr]; discriminate Hr
                                  |destruct Hparts as [_ Hr]; discriminate Hr].
  destruct Hscan as (_ & Hstat & Hkept).
  destruct filePaths as [|filePath rest].
  { pose proof (run_analyze_from E this focusArea [] s0) as Hfrom. rewrite Hparts in Hfrom.
    destruct Hfrom as (_ & _ & Hr & _). discriminate Hr. }
  pose proof (run_analyze_from_outcome focusArea filePath rest s0) as Hfrom.
  rewrite Hparts in Hfrom. cbv zeta in Hfrom.
  destruct Hfrom as (HglA & HstA & HrdA & tmpFile & written & HwrA & Hfrom).
  autorewrite with effects. simpl. autorewrite with effects.
  rewrite HglA, HstA, Hrd0, Hwr0, !app_nil_r. simpl.
  split; [exact Hstat|]. split; [rewrite HrdA; exact Hkept|].
  destruct written as [[]|e]; [|destruct Hfrom as [Hr _]; discriminate Hr].
  split; [exists tmpFile; exact HwrA|].
  destruct Hfrom as [(e & Hr & _)|(command & events & _ & Hr & _)]; [discriminate Hr|].
  unfold analysis_outcome in Hr.
  destruct (settled events [] []) as [response|e|]; try discriminate Hr.
  destruct (extractMermaidDiagram response) as [diagram|e]; try discriminate Hr.
  injection Hr as ->. reflexivity.
Qed.


Transparent readFiles analyzeWithClaude scanWorkspace extractMermaidDiagram
  createAnalysisPrompt rule analyze_from.

End WorkflowMore.

Lemma analyze_outcome_from_child_witness :
  selected_run.1.2
  = analysis_outcome (omap (@record_of posix_like default_analyzer)
                           (read_attempts selected_run.1.1))
                     [StdoutData reply; StdoutData [LF]; Close (Some 0%Z)].
Proof.
  apply (@analyze_outcome_from_child posix_like (memfs reply_world) default_analyzer
           None (Some [js "a.py"]) two_files_fs
           selected_run.1.1 selected_run.1.2 selected_run.2
           (shell_command false (js "/tmp/claude-prompt-1700000000000.txt"))).
  - vm_compute. reflexivity.
  - vm_compute. reflexivity.
Defined.

Lemma analysis_keeps_scan_order_witness :
  (stat_attempts ordered_run.1.1).*1 = concat (matched <$> glob_attempts ordered_run.1.1) /\
  (read_attempts ordered_run.1.1).*1
    = omap (kept default_analyzer) (stat_attempts ordered_run.1.1) /\
  (exists tmpFile,
     write_attempts ordered_run.1.1 =
       [(tmpFile,
         createAnalysisPrompt
           (omap (@record_of posix_like default_analyzer) (read_attempts ordered_run.1.1))
           (Some (js "robot")),
         Ok tt)]) /\
  filesAnalyzed {| analysis := reply; mermaidDiagram := reply;
                   filesAnalyzed := [js "b.py"; js "a.py"] |}
    = List.map path (omap (@record_of posix_like default_analyzer)
                          (read_attempts ordered_run.1.1)).
Proof.
  apply (@analysis_keeps_scan_order posix_like (memfs ordered_world) default_analyzer
           (Some (js "robot")) two_files_fs ordered_run.1.1 _ ordered_run.2).
  vm_compute. reflexivity.
Defined.


(** The changes of two runs on the selected file [a.py]: a write and
    one removal when the child replies, a write and two removals when
    the shell cannot be started. *)
Example changes_of_reply :
  mutations selected_run.1.1
    = [WriteFileSync (js "/tmp/claude-prompt-1700000000000.txt")
         (@createAnalysisPrompt
            [{| path := js "a.py"; content := js "state = 'IDLE'" |}] None);
       UnlinkSync (js "/tmp/claude-prompt-1700000000000.txt")].
Proof. vm_compute. reflexivity. Qed.

Example changes_without_shell :
  mutations unstartable_run.1.1
    = [WriteFileSync (js "/tmp/claude-prompt-1700000000000.txt")
         (@createAnalysisPrompt
            [{| path := js "a.py"; content := js "state = 'IDLE'" |}] None);
       UnlinkSync (js "/tmp/claude-prompt-1700000000000.txt");
       UnlinkSync (js "/tmp/claude-prompt-1700000000000.txt")].
Proof. vm_compute. reflexivity. Qed.

(** X16: an analyzer built with an empty list of include patterns
    keeps it (the defaults replace a missing list only); without a
    selection it finds nothing and throws [no_files] after its first two
    log lines, without calling the matcher. *)
Theorem analyze_without_patterns `{Platform} (E : Env) (workspacePath : str)
    (excludes : option (list str)) (ceiling : option N) (focusArea : option str)
    (s : St E) :
  (run E (analyze (no_pattern_analyzer workspacePath excludes ceiling) focusArea None) s).1
  = ([Ev (ConsoleLog scanning_banner) tt; Ev (ConsoleLog found_none) tt], Threw no_files).
Proof.
  unfold analyze, no_pattern_analyzer, scanWorkspace. simpl.
  step as [] s1. step as [] s2. reflexivity.
Qed.

(* ===================================================================== *)
(** * Temporary file names *)
(* ===================================================================== *)

Lemma js_inj (a b : string) : js a = js b -> a = b.
Proof.
  unfold js. intros Hab.
  apply (f_equal (List.map ascii_of_N)) in Hab.
  rewrite !List.map_map in Hab.
  rewrite (List.map_ext _ (fun a => a) ascii_N_embedding) in Hab.
  rewrite (List.map_ext _ (fun a => a) ascii_N_embedding) in Hab.
  rewrite !List.map_id in Hab.
  apply (f_equal string_of_list_ascii) in Hab.
  rewrite !string_of_list_ascii_of_string in Hab. exact Hab.
Qed.

Lemma to_uint_nonnil (n : N) : N.to_uint n <> Decimal.Nil.
Proof.
  destruct n as [|p]; [discriminate|]. apply DecimalPos.Unsigned.to_uint_nonnil.
Qed.

Lemma show_N_inj (a b : N) : show_N a = show_N b -> a = b.
Proof.
  unfold show_N. intros Hab. apply js_inj in Hab.
  apply DecimalN.Unsigned.to_uint_inj.
  pose proof (NilZero.usu _ (to_uint_nonnil a)) as Ha.
  pose proof (NilZero.usu _ (to_uint_nonnil b)) as Hb.
  rewrite Hab in Ha. rewrite Ha in Hb. injection Hb as ->. reflexivity.
Qed.

(** X17: two different readings of the clock give two different names
    for the temporary prompt file. *)
Theorem temp_names_differ (now1 now2 : N) :
  now1 <> now2 -> tmp_name now1 <> tmp_name now2.
Proof.
  intros Hne Hnames. apply Hne. unfold tmp_name in Hnames.
  apply app_inv_head, app_inv_tail in Hnames. apply show_N_inj, Hnames.
Qed.

Lemma temp_names_differ_witness :
  tmp_name 1700000000000 <> tmp_name 1700000000001.
Proof. apply temp_names_differ. discriminate. Defined.

(* ===================================================================== *)
(** * More on the artifact writer *)
(* ===================================================================== *)

Section WriterMore.
Context `{Platform}.

(** What a run of [saveResults] on the in-memory file system does: the
    output directory is there afterwards; each artifact is written unless
    its path is a directory, and the first that cannot be written ends
    the run. *)
Lemma run_save_memfs (w : Outside) (results : AnalysisResult) (outputDir : str)
    (fs : MemFs) :
  let dirs' := if exists_in fs outputDir then dirs fs else {[outputDir]} ∪ dirs fs in
  let p1 := path_join outputDir (js "state-machine.mmd") in
  let p2 := path_join outputDir (js "analysis.txt") in
  let p3 := path_join outputDir (js "view-diagram.html") in
  let '(tr, r, fs') := run (memfs w) (saveResults results outputDir) fs in
  dirs fs' = dirs' /\
  if bool_decide (p1 ∈ dirs') then
    r = Threw eisdir /\
    files fs' = write_all (take 0 (artifacts results outputDir)) (files fs) /\
    (write_attempts tr).*1 = take 1 (artifacts results outputDir)
  else if bool_decide (p2 ∈ dirs') then
    r = Threw eisdir /\
    files fs' = write_all (take 1 (artifacts results outputDir)) (files fs) /\
    (write_attempts tr).*1 = take 2 (artifacts results outputDir)
  else if bool_decide (p3 ∈ dirs') then
    r = Threw eisdir /\
    files fs' = write_all (take 2 (artifacts results outputDir)) (files fs) /\
    (write_attempts tr).*1 = take 3 (artifacts results outputDir)
  else
    r = Returned {| mermaidPath := p1; analysisPath := p2; htmlPath := Some p3 |} /\
    files fs' = write_all (artifacts results outputDir) (files fs) /\
    (write_attempts tr).*1 = artifacts results outputDir.
Proof.
  unfold saveResults, ensure_dir, generateHTMLViewer, writeFileSync, mkdirSync_recursive,
    exists_in.
  simpl.
  destruct (bool_decide (is_Some (files fs !! outputDir)) || bool_decide (outputDir ∈ dirs fs));
    simpl.
  - destruct (bool_decide (path_join outputDir (js "state-machine.mmd") ∈ dirs fs));
      simpl; [repeat split|].
    destruct (bool_decide (path_join outputDir (js "analysis.txt") ∈ dirs fs));
      simpl; [repeat split|].
    destruct (bool_decide (path_join outputDir (js "view-diagram.html") ∈ dirs fs));
      simpl; repeat split.
  - destruct (bool_decide (path_join outputDir (js "state-machine.mmd")
                             ∈ {[outputDir]} ∪ dirs fs));
      simpl; [repeat split|].
    destruct (bool_decide (path_join outputDir (js "analysis.txt")
                             ∈ {[outputDir]} ∪ dirs fs));
      simpl; [repeat split|].
    destruct (bool_decide (path_join outputDir (js "view-diagram.html")
                             ∈ {[outputDir]} ∪ dirs fs));
      simpl; repeat split.
Qed.

Lemma is_Some_insert (m : gmap str str) (i j : str) (x : str) :
  is_Some (m !! j) -> is_Some (<[i := x]> m !! j).
Proof.
  intros Hj. destruct (decide (i = j)) as [->|Hne].
  - rewrite lookup_insert_eq. eauto.
  - rewrite lookup_insert_ne by exact Hne. exact Hj.
Qed.

Lemma is_Some_write_all (l : list (str * str)) (m : gmap str str) (j : str) :
  is_Some (m !! j) -> is_Some (write_all l m !! j).
Proof.
  revert m. induction l as [|a l IH]; intros m Hj; [exact Hj|].
  apply IH, is_Some_insert, Hj.
Qed.

(** Writing the three artifacts over themselves changes nothing. *)
Lemma write_artifacts_twice (results : AnalysisResult) (outputDir : str)
    (m : gmap str str) :
  write_all (artifacts results outputDir) (write_all (artifacts results outputDir) m)
  = write_all (artifacts results outputDir) m.
Proof.
  unfold write_all, artifacts. cbn [foldl fst snd]. apply map_eq. intros k.
  rewrite !lookup_insert. repeat case_decide; reflexivity.
Qed.

(** A run that returned wrote all three artifacts and left the output
    directory in place. *)
Lemma save_returned (w : Outside) (results : AnalysisResult) (outputDir : str)
    (fs : MemFs) (tr : list event) (saved : SavedPaths) (fs' : MemFs) :
  run (memfs w) (saveResults results outputDir) fs = (tr, Returned saved, fs') ->
  let dirs' := if exists_in fs outputDir then dirs fs else {[outputDir]} ∪ dirs fs in
  dirs fs' = dirs' /\
  Forall (fun a => a.1 ∉ dirs') (artifacts results outputDir) /\
  saved = {| mermaidPath := path_join outputDir (js "state-machine.mmd");
             analysisPath := path_join outputDir (js "analysis.txt");
             htmlPath := Some (path_join outputDir (js "view-diagram.html")) |} /\
  files fs' = write_all (artifacts results outputDir) (files fs) /\
  (write_attempts tr).*1 = artifacts results outputDir.
Proof.
  intros Hrun. pose proof (run_save_memfs w results outputDir fs) as Hmem.
  cbv zeta in Hmem. rewrite Hrun in Hmem. cbv zeta.
  destruct Hmem as [Hdirs Hmem]. split; [exact Hdirs|].
  repeat case_bool_decide; try (destruct Hmem as [Hr _]; discriminate Hr).
  destruct Hmem as (Hr & Hfiles & Hwr). injection Hr as ->.
  split; [|repeat split; assumption].
  unfold artifacts. repeat constructor; assumption.
Qed.

Lemma save_dir_exists (w : Outside) (results : AnalysisResult)
    (outputDir : str) (fs : MemFs) (tr : list event) (saved : SavedPaths) (fs' : MemFs) :
  run (memfs w) (saveResults results outputDir) fs = (tr, Returned saved, fs') ->
  exists_in fs' outputDir = true.
Proof.
  intros Hrun. destruct (save_returned _ _ _ _ _ _ _ Hrun) as (Hdirs & _ & _ & Hfiles & _).
  unfold exists_in in *. rewrite Hdirs, Hfiles. apply orb_true_iff.
  destruct (bool_decide (is_Some (files fs !! outputDir))) eqn:Hfile.
  - left. apply bool_decide_eq_true_2, is_Some_write_all.
    apply bool_decide_eq_true in Hfile. exact Hfile.
  - right. cbn [orb]. destruct (bool_decide (outputDir ∈ dirs fs)) eqn:Hdir.
    + exact Hdir.
    + apply bool_decide_eq_true_2, elem_of_union. left.
      apply elem_of_singleton. reflexivity.
Qed.

(** X18: after a save that returns, the file system holds the three
    artifacts, written in the order diagram, report, viewer over the
    files that were there, and nothing else has changed among the files;
    the output directory exists, and the viewer document holds the
    diagram between the two parts of the static page. *)
Theorem save_writes_three_files (w : Outside) (results : AnalysisResult)
    (outputDir : str) (fs : MemFs) (tr : list event) (saved : SavedPaths) (fs' : MemFs) :
  run (memfs w) (saveResults results outputDir) fs = (tr, Returned saved, fs') ->
  files fs' = write_all (artifacts results outputDir) (files fs) /\
  exists_in fs' outputDir = true /\
  files fs' !! path_join outputDir (js "view-diagram.html")
    = Some (viewer_head ++ mermaidDiagram results ++ viewer_tail).
Proof.
  intros Hrun. destruct (save_returned _ _ _ _ _ _ _ Hrun) as (_ & _ & _ & Hfiles & _).
  split; [exact Hfiles|]. split; [exact (save_dir_exists _ _ _ _ _ _ _ Hrun)|].
  rewrite Hfiles. unfold write_all, artifacts. cbn [foldl fst snd].
  apply lookup_insert_eq.
Qed.

(** X19: a save that throws on the in-memory file system has written
    the artifacts that come before the one that failed, and they stay:
    nothing is rolled back, and nothing after the failure is written. *)
Theorem save_keeps_written_artifacts (w : Outside) (results : AnalysisResult)
    (outputDir : str) (fs : MemFs) (tr : list event) (e : Error) (fs' : MemFs) :
  run (memfs w) (saveResults results outputDir) fs = (tr, Threw e, fs') ->
  exists k, (k < 3)%nat /\
    files fs' = write_all (take k (artifacts results outputDir)) (files fs) /\
    (write_attempts tr).*1 = take (S k) (artifacts results outputDir).
Proof.
  intros Hrun. pose proof (run_save_memfs w results outputDir fs) as Hmem.
  cbv zeta in Hmem. rewrite Hrun in Hmem. destruct Hmem as [_ Hmem].
  repeat case_bool_decide.
  - exists 0%nat. split; [lia|]. destruct Hmem as (_ & Hf & Hw). split; assumption.
  - exists 1%nat. split; [lia|]. destruct Hmem as (_ & Hf & Hw). split; assumption.
  - exists 2%nat. split; [lia|]. destruct Hmem as (_ & Hf & Hw). split; assumption.
  - destruct Hmem as [Hr _]. discriminate Hr.
Qed.

(** X20: saving the same result again into the same directory returns
    the same paths and leaves the file system exactly as the first save
    left it. *)
Theorem save_twice_same (w : Outside) (results : AnalysisResult)
    (outputDir : str) (fs : MemFs) (tr : list event) (saved : SavedPaths) (fs' : MemFs) :
  run (memfs w) (saveResults results outputDir) fs = (tr, Returned saved, fs') ->
  (run (memfs w) (saveResults results outputDir) fs').1.2 = Returned saved /\
  (run (memfs w) (saveResults results outputDir) fs').2 = fs'.
Proof.
  intros Hrun.
  destruct (save_returned _ _ _ _ _ _ _ Hrun) as (Hdirs & Hfree & -> & Hfiles & _).
  pose proof (save_dir_exists _ _ _ _ _ _ _ Hrun) as Hex.
  pose proof (run_save_memfs w results outputDir fs') as Hmem. cbv zeta in Hmem.
  rewrite Hex in Hmem.
  destruct (run (memfs w) (saveResults results outputDir) fs') as [[tr2 r2] fs2]. simpl.
  destruct Hmem as [Hdirs2 Hmem]. rewrite <- Hdirs in Hfree.
  unfold artifacts in Hfree. cbn [fst] in Hfree.
  apply Forall_cons in Hfree as [Hp1 Hfree]. apply Forall_cons in Hfree as [Hp2 Hfree].
  apply Forall_cons in Hfree as [Hp3 _]. cbn [fst] in Hp1, Hp2, Hp3.
  rewrite !bool_decide_eq_false_2 in Hmem by assumption.
  destruct Hmem as (-> & Hfiles2 & _). split; [reflexivity|].
  destruct fs2 as [files2 dirs2], fs' as [files' dirs']. simpl in *.
  rewrite Hfiles2, Hdirs2, Hfiles. f_equal. apply write_artifacts_twice.
Qed.

End WriterMore.

Lemma save_writes_three_files_witness :
  files save_run.2 = write_all (@artifacts posix_like sample_result (js "/out")) (files empty_fs) /\
  exists_in save_run.2 (js "/out") = true /\
  files save_run.2 !! @path_join posix_like (js "/out") (js "view-diagram.html")
    = Some (@viewer_head posix_like ++ mermaidDiagram sample_result ++ @viewer_tail posix_like).
Proof.
  apply (@save_writes_three_files posix_like quiet sample_result (js "/out") empty_fs
           save_run.1.1
           {| mermaidPath := js "/out/state-machine.mmd";
              analysisPath := js "/out/analysis.txt";
              htmlPath := Some (js "/out/view-diagram.html") |}).
  vm_compute. reflexivity.
Defined.

Lemma save_keeps_written_artifacts_witness :
  exists k, (k < 3)%nat /\
    files blocked_save_run.2
      = write_all (take k (@artifacts posix_like sample_result (js "/out"))) (files blocked_fs) /\
    (write_attempts blocked_save_run.1.1).*1
      = take (S k) (@artifacts posix_like sample_result (js "/out")).
Proof.
  apply (@save_keeps_written_artifacts posix_like quiet sample_result (js "/out") blocked_fs
           blocked_save_run.1.1 eisdir).
  vm_compute. reflexivity.
Defined.

Lemma save_twice_same_witness :
  (run (memfs quiet) (@saveResults posix_like sample_result (js "/out")) save_run.2).1.2
    = Returned {| mermaidPath := js "/out/state-machine.mmd";
                  analysisPath := js "/out/analysis.txt";
                  htmlPath := Some (js "/out/view-diagram.html") |} /\
  (run (memfs quiet) (@saveResults posix_like sample_result (js "/out")) save_run.2).2
    = save_run.2.
Proof.
  apply (@save_twice_same posix_like quiet sample_result (js "/out") empty_fs save_run.1.1).
  vm_compute. reflexivity.
Defined.

(* ===================================================================== *)
(** * The fenced-block strategy *)
(* ===================================================================== *)

Section FencedBlock.

Lemma code_block_re_unfold (s : str) :
  code_block_re s =
  match code_block_re_here s with
  | Some g => Some g
  | None => match s with
            | [] => None
            | _ :: s' => code_block_re s'
            end
  end.
Proof. destruct s; reflexivity. Qed.

Lemma lazy_to_fence_unfold (s : str) :
  lazy_to_fence s =
  if starts_with fence s then Some []
  else match s with
       | [] => None
       | c :: s' => cons c <$> lazy_to_fence s'
       end.
Proof. destruct s; reflexivity. Qed.

(** The lazy group stops at the first fence. *)
Lemma lazy_to_fence_first (g rest : str) :
  (forall j, (j < length g)%nat -> starts_with fence (drop j (g ++ fence ++ rest)) = false) ->
  lazy_to_fence (g ++ fence ++ rest) = Some g.
Proof.
  induction g as [|c g IH]; intros Hfirst.
  - rewrite lazy_to_fence_unfold.
    change ([] ++ fence ++ rest) with (fence ++ rest). rewrite starts_with_app. reflexivity.
  - rewrite lazy_to_fence_unfold.
    pose proof (Hfirst 0%nat ltac:(simpl; lia)) as H0.
    change (drop 0 ((c :: g) ++ fence ++ rest)) with ((c :: g) ++ fence ++ rest) in H0.
    rewrite H0. change ((c :: g) ++ fence ++ rest) with (c :: (g ++ fence ++ rest)).
    cbv beta iota. rewrite IH; [reflexivity|]. intros j Hj. apply (Hfirst (S j)). simpl. lia.
Qed.

Lemma code_block_re_leftmost (pre rest : str) :
  (forall i, (i < length pre)%nat -> starts_with mermaid_open (drop i (pre ++ rest)) = false) ->
  code_block_re (pre ++ rest) = code_block_re rest.
Proof.
  induction pre as [|c pre IH]; intros Hfirst; [reflexivity|].
  rewrite code_block_re_unfold. unfold code_block_re_here.
  pose proof (Hfirst 0%nat ltac:(simpl; lia)) as H0.
  change (drop 0 ((c :: pre) ++ rest)) with ((c :: pre) ++ rest) in H0.
  rewrite H0. change ((c :: pre) ++ rest) with (c :: (pre ++ rest)).
  cbv beta iota. apply IH. intros i Hi. apply (Hfirst (S i)). simpl. lia.
Qed.

(** X21: for a reply without the keyword, the diagram is the trimmed
    text between the first line [```mermaid] and the first fence that
    follows it. *)
Theorem fenced_block_interior (pre g post : str) :
  includes keyword (pre ++ mermaid_open ++ g ++ fence ++ post) = false ->
  (forall i, (i < length pre)%nat ->
     starts_with mermaid_open (drop i (pre ++ mermaid_open ++ g ++ fence ++ post)) = false) ->
  (forall j, (j < length g)%nat -> starts_with fence (drop j (g ++ fence ++ post)) = false) ->
  extractMermaidDiagram (pre ++ mermaid_open ++ g ++ fence ++ post) = Ok (trim g).
Proof.
  intros Hkey Hopen Hclose. unfold extractMermaidDiagram.
  rewrite (diagram_re_none _ Hkey), (code_block_re_leftmost _ _ Hopen).
  rewrite code_block_re_unfold. unfold code_block_re_here.
  rewrite starts_with_app, drop_app_length, (lazy_to_fence_first _ _ Hclose). reflexivity.
Qed.

Lemma fenced_block_interior_witness :
  extractMermaidDiagram
    ((js "Here:" ++ [LF]) ++ mermaid_open ++ (js "graph TD" ++ [LF] ++ js "  A --> B" ++ [LF])
       ++ fence ++ ([LF] ++ js "Done."))
  = Ok (trim (js "graph TD" ++ [LF] ++ js "  A --> B" ++ [LF])).
Proof.
  apply (fenced_block_interior (js "Here:" ++ [LF])
           (js "graph TD" ++ [LF] ++ js "  A --> B" ++ [LF]) ([LF] ++ js "Done.")).
  - vm_compute. reflexivity.
  - intros i Hi. do 6 (destruct i as [|i]; [reflexivity|]). simpl in Hi. lia.
  - intros j Hj. do 19 (destruct j as [|j]; [reflexivity|]). simpl in Hj. lia.
Defined.

End FencedBlock.
